(** * LC-3 virtual machine (lc3.c): shallow embedding and verified properties

    The C program keeps its state in two file-scope arrays ([memory], [reg]),
    one local of [main] ([running]) and the process's standard streams.  The
    embedding threads all of them through a record [machine].  A [uint16_t]
    is a [Z] whose wrap-around is written out with [w16] at every place where
    the C code converts to [uint16_t] (assignment, argument passing, return). *)

From Stdlib Require Import ZArith List Bool Lia Ascii.
From Stdlib Require String.
Import String.StringSyntax.
Delimit Scope string_scope with string.
Import ListNotations.
Local Open Scope Z_scope.
Local Open Scope list_scope.

(** ** Words *)

(** Conversion of an [int] value to [uint16_t]. *)
Definition w16 (x : Z) : Z := x mod 65536.

(** C truth value of an integer expression. *)
Definition nz (x : Z) : bool := negb (x =? 0).

(** ** Host adapters: terminal input, keystroke probe, terminal output *)

Module Host.

(** [stdin]: the bytes the terminal will deliver, in order.
    [pending]: the successive answers of the non-blocking probe
    ([select] on descriptor 0 with a zero timeout); the probe depends on
    keystroke timing, so its answers are a script of their own.
    [stdout]: the bytes written so far, oldest first. *)
Record host : Type := mkHost {
  pending : list bool;
  stdin : list Z;
  stdout : list Z
}.

Definition EOF : Z := -1.

(** [getchar()]: the next byte as an [int], or [EOF]. *)
Definition getchar (h : host) : Z * host :=
  match stdin h with
  | [] => (EOF, h)
  | b :: rest => (b, mkHost (pending h) rest (stdout h))
  end.

(** [check_key()]: [select(...) != 0]. *)
Definition check_key (h : host) : bool * host :=
  match pending h with
  | [] => (false, h)
  | k :: rest => (k, mkHost rest (stdin h) (stdout h))
  end.

(** [putc(c, stdout)]: [c] is written converted to [unsigned char]. *)
Definition putc (c : Z) (h : host) : host :=
  mkHost (pending h) (stdin h) (stdout h ++ [c mod 256]).

(** Writing a string literal, byte by byte ([printf] without conversions,
    and [puts] once the newline is appended). *)
Definition put_bytes (bs : list Z) (h : host) : host :=
  fold_left (fun acc c => putc c acc) bs h.

End Host.
Import Host.

(** ** Machine state *)

Definition MEMORY_MAX : Z := Z.shiftl 1 16.

(* registers *)
Definition R_R0 : Z := 0.
Definition R_R1 : Z := 1.
Definition R_R2 : Z := 2.
Definition R_R3 : Z := 3.
Definition R_R4 : Z := 4.
Definition R_R5 : Z := 5.
Definition R_R6 : Z := 6.
Definition R_R7 : Z := 7.
Definition R_PC : Z := 8.
Definition R_COND : Z := 9.
Definition R_COUNT : Z := 10.

(* condition flags *)
Definition FL_POS : Z := Z.shiftl 1 0.
Definition FL_ZRO : Z := Z.shiftl 1 1.
Definition FL_NEG : Z := Z.shiftl 1 2.

(* memory mapped registers *)
Definition MR_KBSR : Z := 0xFE00.
Definition MR_KBDR : Z := 0xFE02.

(** [memory] and [reg] are the two arrays, as maps from index to cell;
    [running] is the local of [main] that [trapInstr] receives by pointer;
    [io] is the host. *)
Record machine : Type := mkMachine {
  memory : Z -> Z;
  reg : Z -> Z;
  running : bool;
  io : host
}.

(** Array cell update. *)
Definition upd (f : Z -> Z) (i v : Z) : Z -> Z :=
  fun j => if j =? i then v else f j.

Definition set_mem (a v : Z) (s : machine) : machine :=
  mkMachine (upd (memory s) a v) (reg s) (running s) (io s).

Definition set_reg (r v : Z) (s : machine) : machine :=
  mkMachine (memory s) (upd (reg s) r v) (running s) (io s).

Definition set_running (b : bool) (s : machine) : machine :=
  mkMachine (memory s) (reg s) b (io s).

Definition set_io (h : host) (s : machine) : machine :=
  mkMachine (memory s) (reg s) (running s) h.

(** What a handler can end in: it returns, the process aborts ([abort()]),
    or a pointer walks off the end of the [memory] array. *)
Inductive outcome (A : Type) : Type :=
| Done (a : A)
| Aborted
| OutOfBounds.
Arguments Done {A} a.
Arguments Aborted {A}.
Arguments OutOfBounds {A}.

(** ** utils *)

Definition sign_extend (x : Z) (bit_count : Z) : Z :=
  if nz (Z.land (Z.shiftr x (bit_count - 1)) 1)
  then w16 (Z.lor x (Z.shiftl 0xFFFF bit_count))
  else x.

Definition update_flags (r : Z) (s : machine) : machine :=
  if reg s r =? 0 then set_reg R_COND FL_ZRO s
  else if nz (Z.shiftr (reg s r) 15) then set_reg R_COND FL_NEG s
  else set_reg R_COND FL_POS s.

Definition swap16 (x : Z) : Z :=
  w16 (Z.lor (Z.shiftl x 8) (Z.shiftr x 8)).

(** ** memory access *)

(** The [uint16_t] parameters convert the arguments on entry. *)
Definition mem_write (address val : Z) (s : machine) : machine :=
  set_mem (w16 address) (w16 val) s.

Definition mem_read (address : Z) (s : machine) : Z * machine :=
  let address := w16 address in
  let s :=
    if address =? MR_KBSR then
      let (key, h) := check_key (io s) in
      if key then
        let s := set_mem MR_KBSR (Z.shiftl 1 15) (set_io h s) in
        let (c, h) := getchar (io s) in
        set_mem MR_KBDR (w16 c) (set_io h s)
      else
        set_mem MR_KBSR 0 (set_io h s)
    else s in
  (memory s address, s).

(** ** Image loader *)

(** [fread(p, sizeof(uint16_t), count, file)]: the complete two-byte items
    that the stream still holds, at most [count] of them, each as the host
    (little-endian) reads the two bytes in file order.  A trailing odd byte
    makes no item; C leaves the cell such a partial item would land in
    indeterminate, and the model leaves it as it was. *)
Fixpoint fread16 (count : nat) (file : list Z) : list Z :=
  match count, file with
  | S count', b0 :: b1 :: rest => (b0 + 256 * b1) :: fread16 count' rest
  | _, _ => []
  end.

(** The items land in consecutive cells from [p] on. *)
Fixpoint store_items (p : Z) (items : list Z) (mem : Z -> Z) : Z -> Z :=
  match items with
  | [] => mem
  | x :: items' => store_items (p + 1) items' (upd mem p x)
  end.

(** The loop that swaps each loaded cell in place, [read] times, advancing
    [p] by one cell per turn. *)
Fixpoint swap_loop (read : nat) (p : Z) (mem : Z -> Z) : Z -> Z :=
  match read with
  | O => mem
  | S read' => swap_loop read' (p + 1) (upd mem p (swap16 (mem p)))
  end.

(** [origin] after [origin = swap16(origin)]; a stream shorter than two
    bytes leaves the C variable indeterminate, hence [None]. *)
Definition image_origin (file : list Z) : option Z :=
  match file with
  | b0 :: b1 :: _ => Some (swap16 (b0 + 256 * b1))
  | _ => None
  end.

(** [uint16_t max_read = MEMORY_MAX - origin;] *)
Definition image_max_read (origin : Z) : Z := w16 (MEMORY_MAX - origin).

(** The value of [read]: the number of items the second [fread] returns. *)
Definition image_read (file : list Z) : option nat :=
  match image_origin file with
  | Some origin =>
      Some (length (fread16 (Z.to_nat (image_max_read origin)) (skipn 2 file)))
  | None => None
  end.

Definition read_image_file (file : list Z) (s : machine) : option machine :=
  match image_origin file with
  | Some origin =>
      let max_read := image_max_read origin in
      let p := origin in
      let items := fread16 (Z.to_nat max_read) (skipn 2 file) in
      let read := length items in
      let mem := store_items p items (memory s) in
      Some (mkMachine (swap_loop read p mem) (reg s) (running s) (io s))
  | None => None
  end.

(** ** instructions *)

Definition addInstr (instr : Z) (s : machine) : machine :=
  let r0 := Z.land (Z.shiftr instr 9) 0x7 in
  let r1 := Z.land (Z.shiftr instr 6) 0x7 in
  let imm_flag := Z.land (Z.shiftr instr 5) 0x1 in
  let s :=
    if nz imm_flag then
      let imm5 := sign_extend (Z.land instr 0x1F) 5 in
      set_reg r0 (w16 (reg s r1 + imm5)) s
    else
      let r2 := Z.land instr 0x7 in
      set_reg r0 (w16 (reg s r1 + reg s r2)) s in
  update_flags r0 s.

Definition ldiInstr (instr : Z) (s : machine) : machine :=
  let r0 := Z.land (Z.shiftr instr 9) 0x7 in
  let pc_offset := sign_extend (Z.land instr 0x1FF) 9 in
  let (a, s) := mem_read (reg s R_PC + pc_offset) s in
  let (v, s) := mem_read a s in
  let s := set_reg r0 v s in
  update_flags r0 s.

Definition andInstr (instr : Z) (s : machine) : machine :=
  let r0 := Z.land (Z.shiftr instr 9) 0x7 in
  let r1 := Z.land (Z.shiftr instr 6) 0x7 in
  let imm_flag := Z.land (Z.shiftr instr 5) 0x1 in
  let s :=
    if nz imm_flag then
      let imm5 := sign_extend (Z.land instr 0x1F) 5 in
      set_reg r0 (Z.land (reg s r1) imm5) s
    else
      let r2 := Z.land instr 0x7 in
      set_reg r0 (Z.land (reg s r1) (reg s r2)) s in
  update_flags r0 s.

Definition notInstr (instr : Z) (s : machine) : machine :=
  let r0 := Z.land (Z.shiftr instr 9) 0x7 in
  let r1 := Z.land (Z.shiftr instr 6) 0x7 in
  let s := set_reg r0 (w16 (Z.lnot (reg s r1))) s in
  update_flags r0 s.

Definition brInstr (instr : Z) (s : machine) : machine :=
  let pc_offset := sign_extend (Z.land instr 0x1FF) 9 in
  let cond_flag := Z.land (Z.shiftr instr 9) 0x7 in
  if nz (Z.land cond_flag (reg s R_COND))
  then set_reg R_PC (w16 (reg s R_PC + pc_offset)) s
  else s.

Definition jmpInstr (instr : Z) (s : machine) : machine :=
  let r1 := Z.land (Z.shiftr instr 6) 0x7 in
  set_reg R_PC (reg s r1) s.

Definition jsrInstr (instr : Z) (s : machine) : machine :=
  let long_flag := Z.land (Z.shiftr instr 11) 1 in
  let s := set_reg R_R7 (reg s R_PC) s in
  if nz long_flag then
    let long_pc_offset := sign_extend (Z.land instr 0x7FF) 11 in
    set_reg R_PC (w16 (reg s R_PC + long_pc_offset)) s
  else
    let r1 := Z.land (Z.shiftr instr 6) 0x7 in
    set_reg R_PC (reg s r1) s.

Definition ldInstr (instr : Z) (s : machine) : machine :=
  let r0 := Z.land (Z.shiftr instr 9) 0x7 in
  let pc_offset := sign_extend (Z.land instr 0x1FF) 9 in
  let (v, s) := mem_read (reg s R_PC + pc_offset) s in
  let s := set_reg r0 v s in
  update_flags r0 s.

Definition ldrInstr (instr : Z) (s : machine) : machine :=
  let r0 := Z.land (Z.shiftr instr 9) 0x7 in
  let r1 := Z.land (Z.shiftr instr 6) 0x7 in
  let offset := sign_extend (Z.land instr 0x3F) 6 in
  let (v, s) := mem_read (reg s r1 + offset) s in
  let s := set_reg r0 v s in
  update_flags r0 s.

Definition leaInstr (instr : Z) (s : machine) : machine :=
  let r0 := Z.land (Z.shiftr instr 9) 0x7 in
  let pc_offset := sign_extend (Z.land instr 0x1FF) 9 in
  let s := set_reg r0 (w16 (reg s R_PC + pc_offset)) s in
  update_flags r0 s.

Definition stInstr (instr : Z) (s : machine) : machine :=
  let r0 := Z.land (Z.shiftr instr 9) 0x7 in
  let pc_offset := sign_extend (Z.land instr 0x1FF) 9 in
  mem_write (reg s R_PC + pc_offset) (reg s r0) s.

Definition stiInstr (instr : Z) (s : machine) : machine :=
  let r0 := Z.land (Z.shiftr instr 9) 0x7 in
  let pc_offset := sign_extend (Z.land instr 0x1FF) 9 in
  let (a, s) := mem_read (reg s R_PC + pc_offset) s in
  mem_write a (reg s r0) s.

Definition strInstr (instr : Z) (s : machine) : machine :=
  let r0 := Z.land (Z.shiftr instr 9) 0x7 in
  let r1 := Z.land (Z.shiftr instr 6) 0x7 in
  let offset := sign_extend (Z.land instr 0x3F) 6 in
  mem_write (reg s r1 + offset) (reg s r0) s.

(** ** trap service routines *)

Inductive trapcode : Type :=
| TRAP_GETC | TRAP_OUT | TRAP_PUTS | TRAP_IN | TRAP_PUTSP | TRAP_HALT.

(** The [case] labels of the [switch] in [trapInstr]; [None] is a value that
    no label matches. *)
Definition trapcode_of (v : Z) : option trapcode :=
  match v with
  | 0x20 => Some TRAP_GETC
  | 0x21 => Some TRAP_OUT
  | 0x22 => Some TRAP_PUTS
  | 0x23 => Some TRAP_IN
  | 0x24 => Some TRAP_PUTSP
  | 0x25 => Some TRAP_HALT
  | _ => None
  end.

(** Conversion to [char] (signed, as on the x86 unix hosts the program is
    written for). *)
Definition to_char (x : Z) : Z := (x + 128) mod 256 - 128.

(** The bytes of a string literal. *)
Definition bytes_of (str : String.string) : list Z :=
  map (fun c => Z.of_N (N_of_ascii c)) (String.list_ascii_of_string str).

(** The cells of [memory] from index [c] to the end of the array. *)
Definition cells_from (c : Z) : nat := Z.to_nat (MEMORY_MAX - c).

(** The loop of TRAP_PUTS.  [c] is the index the pointer stands at and
    [cells] the number of cells from there to the end of the array: with none
    left the pointer is one past the array and the loop test reads outside
    of it. *)
Fixpoint puts_loop (mem : Z -> Z) (c : Z) (cells : nat) (h : host)
  : outcome host :=
  match cells with
  | O => OutOfBounds
  | S cells' =>
      if nz (mem c)
      then puts_loop mem (c + 1) cells' (putc (to_char (mem c)) h)
      else Done h
  end.

(** The loop of TRAP_PUTSP. *)
Fixpoint putsp_loop (mem : Z -> Z) (c : Z) (cells : nat) (h : host)
  : outcome host :=
  match cells with
  | O => OutOfBounds
  | S cells' =>
      if nz (mem c) then
        let char1 := to_char (Z.land (mem c) 0xFF) in
        let h := putc char1 h in
        let char2 := to_char (Z.shiftr (mem c) 8) in
        let h := if nz char2 then putc char2 h else h in
        putsp_loop mem (c + 1) cells' h
      else Done h
  end.

Definition trapInstr (instr : Z) (s : machine) : outcome machine :=
  let s := set_reg R_R7 (reg s R_PC) s in
  match trapcode_of (Z.land instr 0xFF) with
  | Some TRAP_GETC =>
      let (c, h) := getchar (io s) in
      let s := set_reg R_R0 (w16 c) (set_io h s) in
      Done (update_flags R_R0 s)
  | Some TRAP_OUT =>
      Done (set_io (putc (to_char (reg s R_R0)) (io s)) s)
  | Some TRAP_PUTS =>
      let c := reg s R_R0 in
      match puts_loop (memory s) c (cells_from c) (io s) with
      | Done h => Done (set_io h s)
      | Aborted => Aborted
      | OutOfBounds => OutOfBounds
      end
  | Some TRAP_IN =>
      let h := put_bytes (bytes_of "Enter a character: "%string) (io s) in
      let (c, h) := getchar h in
      let c := to_char c in
      let h := putc c h in
      let s := set_reg R_R0 (w16 c) (set_io h s) in
      Done (update_flags R_R0 s)
  | Some TRAP_PUTSP =>
      let c := reg s R_R0 in
      match putsp_loop (memory s) c (cells_from c) (io s) with
      | Done h => Done (set_io h s)
      | Aborted => Aborted
      | OutOfBounds => OutOfBounds
      end
  | Some TRAP_HALT =>
      let h := put_bytes (bytes_of "HALT"%string ++ [10]) (io s) in
      Done (set_running false (set_io h s))
  | None => Done s
  end.

(** ** main *)

Inductive opcode : Type :=
| OP_BR | OP_ADD | OP_LD | OP_ST | OP_JSR | OP_AND | OP_LDR | OP_STR
| OP_RTI | OP_NOT | OP_LDI | OP_STI | OP_JMP | OP_RES | OP_LEA | OP_TRAP.

(** The enumerators' values, [OP_BR = 0] onwards; [None] is the [default]
    label. *)
Definition opcode_of (op : Z) : option opcode :=
  match op with
  | 0 => Some OP_BR
  | 1 => Some OP_ADD
  | 2 => Some OP_LD
  | 3 => Some OP_ST
  | 4 => Some OP_JSR
  | 5 => Some OP_AND
  | 6 => Some OP_LDR
  | 7 => Some OP_STR
  | 8 => Some OP_RTI
  | 9 => Some OP_NOT
  | 10 => Some OP_LDI
  | 11 => Some OP_STI
  | 12 => Some OP_JMP
  | 13 => Some OP_RES
  | 14 => Some OP_LEA
  | 15 => Some OP_TRAP
  | _ => None
  end.

(** The [switch (op)] of the run loop. *)
Definition dispatch (instr : Z) (s : machine) : outcome machine :=
  let op := Z.shiftr instr 12 in
  match opcode_of op with
  | Some OP_ADD => Done (addInstr instr s)
  | Some OP_AND => Done (andInstr instr s)
  | Some OP_NOT => Done (notInstr instr s)
  | Some OP_BR => Done (brInstr instr s)
  | Some OP_JMP => Done (jmpInstr instr s)
  | Some OP_JSR => Done (jsrInstr instr s)
  | Some OP_LD => Done (ldInstr instr s)
  | Some OP_LDI => Done (ldiInstr instr s)
  | Some OP_LDR => Done (ldrInstr instr s)
  | Some OP_LEA => Done (leaInstr instr s)
  | Some OP_ST => Done (stInstr instr s)
  | Some OP_STI => Done (stiInstr instr s)
  | Some OP_STR => Done (strInstr instr s)
  | Some OP_TRAP => trapInstr instr s
  | Some OP_RES => Aborted
  | Some OP_RTI => Aborted
  | None => Aborted
  end.

(** FETCH: [instr = mem_read(reg[R_PC]++)]. *)
Definition fetch (s : machine) : Z * machine :=
  let pc := reg s R_PC in
  let s := set_reg R_PC (w16 (pc + 1)) s in
  mem_read pc s.

(** One turn of the [while (running)] loop. *)
Definition step (s : machine) : outcome machine :=
  let (instr, s) := fetch s in
  dispatch instr s.

(** The loop, for at most [fuel] turns; [None] when the turns are used up
    with [running] still set. *)
Fixpoint run (fuel : nat) (s : machine) : option (outcome machine) :=
  if running s then
    match fuel with
    | O => None
    | S fuel' =>
        match step s with
        | Done s' => run fuel' s'
        | Aborted => Some Aborted
        | OutOfBounds => Some OutOfBounds
        end
    end
  else Some (Done s).

Definition PC_START : Z := 0x3000.

(** The state [main] enters the loop with: the arrays as the loader left
    them ([reg] is zero-initialised and the loader does not touch it), then
    [reg[R_COND] = FL_ZRO], [reg[R_PC] = PC_START], [running = 1]. *)
Definition boot (mem : Z -> Z) (h : host) : machine :=
  set_running true
    (set_reg R_PC PC_START
       (set_reg R_COND FL_ZRO (mkMachine mem (fun _ => 0) true h))).

(** States the run loop can be in at the top of a turn. *)
Inductive reachable : machine -> Prop :=
| reach_boot : forall mem h, reachable (boot mem h)
| reach_step : forall s s',
    reachable s -> running s = true -> step s = Done s' -> reachable s'.

(** ** Vocabulary of the properties *)

(** The class of a 16-bit value: zero, bit 15 set, or neither. *)
Definition flag_of (v : Z) : Z :=
  if v =? 0 then FL_ZRO else if nz (Z.shiftr v 15) then FL_NEG else FL_POS.

(** [COND] holds exactly one of the three flags. *)
Definition cond_one_hot (s : machine) : Prop :=
  reg s R_COND = 1 \/ reg s R_COND = 2 \/ reg s R_COND = 4.

(** One turn of the loop for an instruction word that is already in hand:
    the increment of [PC] that the fetch makes, then the [switch]. *)
Definition exec (instr : Z) (s : machine) : outcome machine :=
  dispatch instr (set_reg R_PC (w16 (reg s R_PC + 1)) s).

(** Instruction words, field by field. *)
Definition enc_LEA (dr off9 : Z) : Z := 0xE000 + dr * 512 + off9.
Definition enc_LD (dr off9 : Z) : Z := 0x2000 + dr * 512 + off9.
Definition enc_LDR (dr base off6 : Z) : Z := 0x6000 + dr * 512 + base * 64 + off6.

(** Offset of the first zero word among the [cells] cells from index [c]. *)
Fixpoint first_zero (mem : Z -> Z) (c : Z) (cells : nat) : option nat :=
  match cells with
  | O => None
  | S cells' =>
      if mem c =? 0 then Some O
      else option_map S (first_zero mem (c + 1) cells')
  end.

(** The low 8 bits of the [k] words from index [c], in address order. *)
Definition low_bytes (mem : Z -> Z) (c : Z) (k : nat) : list Z :=
  map (fun j => Z.land (mem (c + Z.of_nat j)) 0xFF) (seq 0 k).

(** The big-endian 16-bit word made of two bytes in file order. *)
Definition be_word (b0 b1 : Z) : Z := 256 * b0 + b1.

(** *** Sample states *)

Definition quiet_host : host := mkHost [] [] [].

Definition zero_mem : Z -> Z := fun _ => 0.

(** The image of the spec's scenario "add and halt", loaded at 0x3000. *)
Definition add_halt_image : list Z :=
  [0x30; 0x00; 0x10; 0x20; 0x10; 0x27; 0xF0; 0x25].

Definition blank : machine := mkMachine zero_mem zero_mem true quiet_host.

(** A machine just after the fetch of the word at 0x3000, a key typed. *)
Definition typed_A : machine :=
  set_reg R_PC 0x3001 (boot zero_mem (mkHost [true] [65] [])).

(** The string "Hi!" at 0x4000, one character per word, and [R0] on it. *)
Definition hi_mem : Z -> Z :=
  upd (upd (upd zero_mem 0x4000 72) 0x4001 105) 0x4002 33.

Definition hi_machine : machine :=
  set_reg R_R0 0x4000 (set_reg R_PC 0x3001 (boot hi_mem quiet_host)).

(** The memory a blank machine has after loading an image file. *)
Definition loaded (file : list Z) : Z -> Z :=
  match read_image_file file blank with
  | Some s => memory s
  | None => zero_mem
  end.

(** The value of each trap code. *)
Definition trap_vector (t : trapcode) : Z :=
  match t with
  | TRAP_GETC => 0x20
  | TRAP_OUT => 0x21
  | TRAP_PUTS => 0x22
  | TRAP_IN => 0x23
  | TRAP_PUTSP => 0x24
  | TRAP_HALT => 0x25
  end.

(** A memory with no zero word at all. *)
Definition full_mem : Z -> Z := fun _ => 0x41.

(** ** Opening and loading images; the program as a whole *)

(** The files [fopen] finds and can read, by path, each with its bytes. *)
Definition filesystem : Type := String.string -> option (list Z).

(** [read_image]: the value returned and the state left.  [None] stands for
    the indeterminate origin of a file shorter than two bytes. *)
Definition read_image (fs : filesystem) (image_path : String.string)
  (s : machine) : option (Z * machine) :=
  match fs image_path with
  | None => Some (0, s)
  | Some file =>
      match read_image_file file s with
      | Some s' => Some (1, s')
      | None => None
      end
  end.

(** How the process ends. *)
Inductive ending : Type :=
| Exit (status : Z) (h : host)      (* [exit(status)] before the loop *)
| Returned (s : machine)            (* the loop left, [main] returns *)
| Crashed (o : outcome machine)     (* [abort()] or a read off the array *)
| Indeterminate                     (* an image shorter than two bytes *)
| StillRunning.                     (* the turns allowed are used up *)

(** The [for] loop of [main] over the image paths. *)
Fixpoint load_images (fs : filesystem) (paths : list String.string)
  (s : machine) : option (machine + String.string) :=
  match paths with
  | [] => Some (inl s)
  | path :: paths' =>
      match read_image fs path s with
      | None => None
      | Some (ok, s') =>
          if nz ok then load_images fs paths' s' else Some (inr path)
      end
  end.

(** [main], from the arrays as the system zeroes them.  [argv] includes the
    program name.  The terminal set-up, its restoration and the signal
    handler lie outside the model. *)
Definition main (fs : filesystem) (argv : list String.string) (h : host)
  (fuel : nat) : ending :=
  let argc := Z.of_nat (length argv) in
  if argc <? 2 then
    Exit 2 (put_bytes (bytes_of "lc3 [image-file1] ..."%string ++ [10]) h)
  else
    match load_images fs (tl argv)
            (mkMachine (fun _ => 0) (fun _ => 0) true h) with
    | None => Indeterminate
    | Some (inr path) =>
        Exit 1
          (put_bytes
             (bytes_of "failed to load image: "%string ++ bytes_of path ++ [10])
             h)
    | Some (inl s) =>
        match run fuel (boot (memory s) (io s)) with
        | Some (Done s') => Returned s'
        | Some o => Crashed o
        | None => StillRunning
        end
    end.

(** ** Vocabulary of the further properties *)

(** An [n]-bit field read as a two's-complement number. *)
Definition signed (n x : Z) : Z := if x <? 2 ^ (n - 1) then x else x - 2 ^ n.

(** A value a [uint16_t] can hold. *)
Definition word (x : Z) : Prop := 0 <= x < 65536.

(** Every cell of both arrays holds a [uint16_t] value. *)
Definition well_formed (s : machine) : Prop :=
  (forall a, word (memory s a)) /\ (forall r, word (reg s r)).

(** The bytes TRAP_PUTSP writes for one word: the low byte, then the high
    byte unless it is zero. *)
Definition word_chars (w : Z) : list Z :=
  Z.land w 0xFF ::
  (if Z.land (Z.shiftr w 8) 0xFF =? 0 then [] else [Z.land (Z.shiftr w 8) 0xFF]).

(** The bytes of the [k] packed words from index [c], in address order. *)
Definition packed_bytes (mem : Z -> Z) (c : Z) (k : nat) : list Z :=
  flat_map (fun j => word_chars (mem (c + Z.of_nat j))) (seq 0 k).

(** Further instruction words, field by field. *)
Definition enc_NOT (dr sr : Z) : Z := 0x9000 + dr * 512 + sr * 64 + 0x3F.
Definition enc_JMP (base : Z) : Z := 0xC000 + base * 64.
Definition enc_JSR (off11 : Z) : Z := 0x4800 + off11.
Definition enc_JSRR (base : Z) : Z := 0x4000 + base * 64.
Definition enc_TRAP (vector : Z) : Z := 0xF000 + vector.

(** The value of each opcode. *)
Definition opcode_value (o : opcode) : Z :=
  match o with
  | OP_BR => 0 | OP_ADD => 1 | OP_LD => 2 | OP_ST => 3
  | OP_JSR => 4 | OP_AND => 5 | OP_LDR => 6 | OP_STR => 7
  | OP_RTI => 8 | OP_NOT => 9 | OP_LDI => 10 | OP_STI => 11
  | OP_JMP => 12 | OP_RES => 13 | OP_LEA => 14 | OP_TRAP => 15
  end.

(** A file system with one image in it. *)
Definition one_image_fs : filesystem :=
  fun path =>
    if String.eqb path "add.obj"%string then Some add_halt_image else None.

(** * Properties *)

(** ** Arrays and words *)

Lemma upd_same (f : Z -> Z) (i v : Z) : upd f i v i = v.
Proof. unfold upd. now rewrite Z.eqb_refl. Qed.

Lemma upd_other (f : Z -> Z) (i v j : Z) : j <> i -> upd f i v j = f j.
Proof. intros Hne. unfold upd. now apply Z.eqb_neq in Hne as ->. Qed.

Lemma MEMORY_MAX_eq : MEMORY_MAX = 65536.
Proof. reflexivity. Qed.

Lemma w16_range (x : Z) : 0 <= w16 x < 65536.
Proof. unfold w16. apply Z.mod_pos_bound. lia. Qed.

Lemma w16_small (x : Z) : 0 <= x < 65536 -> w16 x = x.
Proof. intros Hx. unfold w16. now apply Z.mod_small. Qed.

Lemma w16_idem (x : Z) : w16 (w16 x) = w16 x.
Proof. apply w16_small, w16_range. Qed.

Lemma land7_range (x : Z) : 0 <= Z.land x 7 < 8.
Proof.
  change 7 with (Z.ones 3). rewrite Z.land_ones by lia.
  apply Z.mod_pos_bound. lia.
Qed.

Lemma low8_mod (x : Z) : Z.land x 0xFF = x mod 256.
Proof. change 0xFF with (Z.ones 8). now rewrite Z.land_ones by lia. Qed.

Lemma to_char_byte (x : Z) : to_char x mod 256 = x mod 256.
Proof.
  unfold to_char. rewrite Zminus_mod_idemp_l. f_equal. lia.
Qed.

(** ** Memory access *)

Section MemRead.

Variable s : machine.
Variable address : Z.

Lemma mem_read_plain :
  w16 address <> MR_KBSR ->
  mem_read address s = (memory s (w16 address), s).
Proof.
  intros Hne. unfold mem_read.
  now apply Z.eqb_neq in Hne as ->.
Qed.

Lemma mem_read_idle (h1 : host) :
  w16 address = MR_KBSR ->
  check_key (io s) = (false, h1) ->
  mem_read address s = (0, set_mem MR_KBSR 0 (set_io h1 s)).
Proof.
  intros Ha Hk. unfold mem_read. rewrite Ha, Z.eqb_refl, Hk.
  reflexivity.
Qed.

Lemma mem_read_key (h1 h2 : host) (c : Z) :
  w16 address = MR_KBSR ->
  check_key (io s) = (true, h1) ->
  getchar h1 = (c, h2) ->
  mem_read address s =
  (0x8000,
   set_mem MR_KBDR (w16 c)
     (set_io h2 (set_mem MR_KBSR (Z.shiftl 1 15) (set_io h1 s)))).
Proof.
  intros Ha Hk Hc. unfold mem_read. rewrite Ha, Z.eqb_refl, Hk.
  cbn [io set_mem set_io]. rewrite Hc. reflexivity.
Qed.

Lemma mem_read_returns_cell :
  fst (mem_read address s) = memory (snd (mem_read address s)) (w16 address).
Proof. reflexivity. Qed.

Lemma mem_read_reg : reg (snd (mem_read address s)) = reg s.
Proof.
  unfold mem_read. destruct (w16 address =? MR_KBSR); [|reflexivity].
  destruct (check_key (io s)) as [[] h1]; [|reflexivity].
  cbn [io set_mem set_io]. now destruct (getchar h1).
Qed.

Lemma mem_read_running : running (snd (mem_read address s)) = running s.
Proof.
  unfold mem_read. destruct (w16 address =? MR_KBSR); [|reflexivity].
  destruct (check_key (io s)) as [[] h1]; [|reflexivity].
  cbn [io set_mem set_io]. now destruct (getchar h1).
Qed.

End MemRead.

Lemma check_key_streams (h h1 : host) (k : bool) :
  check_key h = (k, h1) -> stdin h1 = stdin h /\ stdout h1 = stdout h.
Proof.
  unfold check_key. destruct (pending h); intros [= <- <-]; now split.
Qed.

Lemma getchar_next (h : host) (b : Z) (rest : list Z) :
  stdin h = b :: rest ->
  getchar h = (b, mkHost (pending h) rest (stdout h)).
Proof. intros Hin. unfold getchar. now rewrite Hin. Qed.

(** C1.  A read of any address other than 0xFE00 returns the word stored
    there and changes nothing.  A read of 0xFE00 polls the keystroke probe
    first: with a key pending, the next host byte goes to [memory[0xFE02]]
    and 0x8000 to [memory[0xFE00]]; with none, 0 goes to [memory[0xFE00]].
    Either way the value returned is the word at the address after these
    stores. *)
Theorem mem_read_spec (s : machine) (addr : Z) :
  0 <= addr < MEMORY_MAX ->
  (addr <> MR_KBSR -> mem_read addr s = (memory s addr, s))
  /\ (addr = MR_KBSR ->
      forall h1 : host,
        let s' := snd (mem_read addr s) in
        (check_key (io s) = (true, h1) ->
         forall b rest, stdin h1 = b :: rest -> 0 <= b < 256 ->
           memory s' MR_KBDR = b
           /\ memory s' MR_KBSR = 0x8000
           /\ (forall a, a <> MR_KBSR -> a <> MR_KBDR ->
                 memory s' a = memory s a)
           /\ reg s' = reg s
           /\ stdin (io s') = rest
           /\ stdout (io s') = stdout (io s))
        /\ (check_key (io s) = (false, h1) ->
            memory s' MR_KBSR = 0
            /\ (forall a, a <> MR_KBSR -> memory s' a = memory s a)
            /\ reg s' = reg s
            /\ io s' = h1))
  /\ fst (mem_read addr s) = memory (snd (mem_read addr s)) addr.
Proof.
  intros Hrange. rewrite MEMORY_MAX_eq in Hrange.
  pose proof (w16_small addr Hrange) as Hw.
  split; [|split].
  - intros Hne. rewrite mem_read_plain by now rewrite Hw.
    now rewrite Hw.
  - intros -> h1 s'. split.
    + intros Hk b rest Hin Hb.
      pose proof (check_key_streams _ _ _ Hk) as [_ Hout].
      subst s'.
      rewrite (mem_read_key s MR_KBSR h1 _ b Hw Hk (getchar_next h1 b rest Hin)).
      cbn [snd memory reg io set_mem set_io stdin stdout].
      repeat apply conj; try assumption; try reflexivity.
      * rewrite upd_same. apply w16_small; lia.
      * intros a Ha1 Ha2. cbv beta. now rewrite !upd_other by assumption.
    + intros Hk. subst s'.
      rewrite (mem_read_idle s MR_KBSR h1 Hw Hk).
      cbn [snd memory reg io set_mem set_io].
      repeat apply conj; try reflexivity.
      intros a Ha. now apply upd_other.
  - rewrite mem_read_returns_cell. now rewrite Hw.
Qed.

Lemma mem_read_spec_witness :
  0 <= MR_KBSR < MEMORY_MAX
  /\ memory (snd (mem_read MR_KBSR typed_A)) MR_KBDR = 65
  /\ memory (snd (mem_read MR_KBSR typed_A)) MR_KBSR = 0x8000
  /\ fst (mem_read MR_KBSR typed_A) = 0x8000.
Proof.
  assert (Hrange : 0 <= MR_KBSR < MEMORY_MAX) by (vm_compute; split; congruence).
  destruct (mem_read_spec typed_A MR_KBSR Hrange) as [_ [Hpoll Hret]].
  destruct (Hpoll eq_refl (mkHost [] [65] [])) as [Hkey _].
  destruct (Hkey eq_refl 65 [] eq_refl ltac:(lia)) as [Hd [Hs _]].
  split; [exact Hrange|].
  split; [exact Hd|].
  split; [exact Hs|].
  rewrite Hret. exact Hs.
Defined.

(** C10.  With no key pending, a read of 0xFE00 stores 0 there and returns
    0; the keyboard data word at 0xFE02, every other memory word and every
    register keep their values, and the host's input and output streams are
    not touched. *)
Theorem mem_read_kbsr_no_key (s : machine) (h1 : host) :
  check_key (io s) = (false, h1) ->
  exists s',
    mem_read MR_KBSR s = (0, s')
    /\ memory s' MR_KBSR = 0
    /\ memory s' MR_KBDR = memory s MR_KBDR
    /\ (forall a, a <> MR_KBSR -> memory s' a = memory s a)
    /\ (forall r, reg s' r = reg s r)
    /\ running s' = running s
    /\ stdin (io s') = stdin (io s)
    /\ stdout (io s') = stdout (io s).
Proof.
  intros Hk. exists (set_mem MR_KBSR 0 (set_io h1 s)).
  pose proof (check_key_streams _ _ _ Hk) as [Hin Hout].
  rewrite (mem_read_idle s MR_KBSR h1 eq_refl Hk).
  cbn [memory reg running io set_mem set_io].
  repeat apply conj; try assumption; try reflexivity.
  intros a Ha. now apply upd_other.
Qed.

Lemma mem_read_kbsr_no_key_witness :
  check_key (io (boot hi_mem quiet_host)) = (false, quiet_host)
  /\ exists s',
      mem_read MR_KBSR (boot hi_mem quiet_host) = (0, s')
      /\ memory s' MR_KBDR = memory (boot hi_mem quiet_host) MR_KBDR.
Proof.
  split; [reflexivity|].
  destruct (mem_read_kbsr_no_key (boot hi_mem quiet_host) quiet_host eq_refl)
    as [s' [Hr [_ [Hd _]]]].
  exists s'. split; assumption.
Defined.

(** ** Condition codes *)

Lemma update_flags_eq (r : Z) (s : machine) :
  update_flags r s = set_reg R_COND (flag_of (reg s r)) s.
Proof.
  unfold update_flags, flag_of.
  destruct (reg s r =? 0); [reflexivity|].
  now destruct (nz (Z.shiftr (reg s r) 15)).
Qed.

Lemma flag_of_cases (v : Z) : flag_of v = 1 \/ flag_of v = 2 \/ flag_of v = 4.
Proof.
  unfold flag_of. destruct (v =? 0); [now (right; left)|].
  destruct (nz (Z.shiftr v 15)); [now (right; right) | now left].
Qed.

Lemma update_flags_cond (r : Z) (s : machine) :
  reg (update_flags r s) R_COND = flag_of (reg s r).
Proof. rewrite update_flags_eq. apply upd_same. Qed.

Lemma update_flags_reg (r r' : Z) (s : machine) :
  r' <> R_COND -> reg (update_flags r s) r' = reg s r'.
Proof. intros Hne. rewrite update_flags_eq. now apply upd_other. Qed.

Lemma update_flags_one_hot (r : Z) (s : machine) :
  cond_one_hot (update_flags r s).
Proof. unfold cond_one_hot. rewrite update_flags_cond. apply flag_of_cases. Qed.

(** A state change that leaves [reg[R_COND]] alone keeps the invariant. *)
Lemma one_hot_transfer (s s' : machine) :
  reg s' R_COND = reg s R_COND -> cond_one_hot s -> cond_one_hot s'.
Proof. unfold cond_one_hot. now intros ->. Qed.

Lemma mem_read_one_hot (a : Z) (s : machine) :
  cond_one_hot s -> cond_one_hot (snd (mem_read a s)).
Proof. apply one_hot_transfer. now rewrite mem_read_reg. Qed.

Ltac flags_done :=
  repeat match goal with
         | |- context [mem_read ?a ?s] => destruct (mem_read a s)
         end;
  apply update_flags_one_hot.

Section HandlersKeepCond.

Variable instr : Z.
Variable s : machine.

Lemma addInstr_one_hot : cond_one_hot (addInstr instr s).
Proof. unfold addInstr. flags_done. Qed.

Lemma andInstr_one_hot : cond_one_hot (andInstr instr s).
Proof. unfold andInstr. flags_done. Qed.

Lemma notInstr_one_hot : cond_one_hot (notInstr instr s).
Proof. unfold notInstr. flags_done. Qed.

Lemma leaInstr_one_hot : cond_one_hot (leaInstr instr s).
Proof. unfold leaInstr. flags_done. Qed.

Lemma ldInstr_one_hot : cond_one_hot (ldInstr instr s).
Proof. unfold ldInstr. flags_done. Qed.

Lemma ldiInstr_one_hot : cond_one_hot (ldiInstr instr s).
Proof. unfold ldiInstr. flags_done. Qed.

Lemma ldrInstr_one_hot : cond_one_hot (ldrInstr instr s).
Proof. unfold ldrInstr. flags_done. Qed.

Hypothesis Hs : cond_one_hot s.

Lemma brInstr_one_hot : cond_one_hot (brInstr instr s).
Proof.
  unfold brInstr.
  destruct (nz _); [|exact Hs].
  now apply (one_hot_transfer s).
Qed.

Lemma jmpInstr_one_hot : cond_one_hot (jmpInstr instr s).
Proof. now apply (one_hot_transfer s). Qed.

Lemma jsrInstr_one_hot : cond_one_hot (jsrInstr instr s).
Proof.
  unfold jsrInstr. cbv zeta.
  destruct (nz _); now apply (one_hot_transfer s).
Qed.

Lemma stInstr_one_hot : cond_one_hot (stInstr instr s).
Proof. now apply (one_hot_transfer s). Qed.

Lemma strInstr_one_hot : cond_one_hot (strInstr instr s).
Proof. now apply (one_hot_transfer s). Qed.

Lemma stiInstr_one_hot : cond_one_hot (stiInstr instr s).
Proof.
  unfold stiInstr. cbv zeta.
  pose proof (mem_read_reg s (reg s R_PC + sign_extend (Z.land instr 0x1FF) 9))
    as Hr.
  destruct (mem_read _ s) as [a s1]. cbn [snd] in Hr.
  apply (one_hot_transfer s); [|exact Hs].
  cbn [mem_write set_mem reg]. unfold mem_write, set_mem. cbn [reg].
  now rewrite Hr.
Qed.

Lemma trapInstr_one_hot (s' : machine) :
  trapInstr instr s = Done s' -> cond_one_hot s'.
Proof.
  unfold trapInstr. cbv zeta.
  destruct (trapcode_of _) as [[]|].
  - destruct (getchar _) as [c h]. intros [= <-]. apply update_flags_one_hot.
  - intros [= <-]. now apply (one_hot_transfer s).
  - destruct (puts_loop _ _ _ _); intros [= <-].
    now apply (one_hot_transfer s).
  - destruct (getchar _) as [c h]. intros [= <-]. apply update_flags_one_hot.
  - destruct (putsp_loop _ _ _ _); intros [= <-].
    now apply (one_hot_transfer s).
  - intros [= <-]. now apply (one_hot_transfer s).
  - intros [= <-]. now apply (one_hot_transfer s).
Qed.

Lemma dispatch_one_hot (s' : machine) :
  dispatch instr s = Done s' -> cond_one_hot s'.
Proof.
  unfold dispatch. cbv zeta.
  destruct (opcode_of _) as [[]|]; try discriminate;
    try (intros [= <-]).
  - apply brInstr_one_hot.
  - apply addInstr_one_hot.
  - apply ldInstr_one_hot.
  - apply stInstr_one_hot.
  - apply jsrInstr_one_hot.
  - apply andInstr_one_hot.
  - apply ldrInstr_one_hot.
  - apply strInstr_one_hot.
  - apply notInstr_one_hot.
  - apply ldiInstr_one_hot.
  - apply stiInstr_one_hot.
  - apply jmpInstr_one_hot.
  - apply leaInstr_one_hot.
  - apply trapInstr_one_hot.
Qed.

End HandlersKeepCond.

Lemma fetch_reg (s : machine) (r : Z) :
  r <> R_PC -> reg (snd (fetch s)) r = reg s r.
Proof.
  intros Hne. unfold fetch. cbv zeta. rewrite mem_read_reg.
  cbn [reg set_reg]. now apply upd_other.
Qed.

Lemma fetch_pc (s : machine) :
  reg (snd (fetch s)) R_PC = w16 (reg s R_PC + 1).
Proof.
  unfold fetch. cbv zeta. rewrite mem_read_reg.
  cbn [reg set_reg]. apply upd_same.
Qed.

Lemma step_one_hot (s s' : machine) :
  cond_one_hot s -> step s = Done s' -> cond_one_hot s'.
Proof.
  intros Hs. unfold step.
  pose proof (fetch_reg s R_COND ltac:(discriminate)) as Hc.
  destruct (fetch s) as [instr s1]. cbn [snd] in Hc.
  apply dispatch_one_hot. now apply (one_hot_transfer s).
Qed.

Lemma boot_cond (mem : Z -> Z) (h : host) : reg (boot mem h) R_COND = FL_ZRO.
Proof. reflexivity. Qed.

Lemma reachable_one_hot (s : machine) : reachable s -> cond_one_hot s.
Proof.
  induction 1 as [mem h | s s' _ IH _ Hstep].
  - right; left. reflexivity.
  - exact (step_one_hot s s' IH Hstep).
Qed.

(** C4.  [COND] is one of 0b001, 0b010, 0b100 in every state the run loop
    reaches, before and after the instruction executed from it: the loop is
    entered with [COND = Z], and every opcode handler and trap routine that
    returns hands back a one-hot [COND] when given one. *)
Theorem cond_one_hot_invariant :
  (forall mem h, reg (boot mem h) R_COND = FL_ZRO)
  /\ (forall instr s s',
        cond_one_hot s -> dispatch instr s = Done s' -> cond_one_hot s')
  /\ (forall s,
        reachable s ->
        cond_one_hot s /\ (forall s', step s = Done s' -> cond_one_hot s')).
Proof.
  split; [exact boot_cond|]. split.
  - intros instr s s' Hs. now apply dispatch_one_hot.
  - intros s Hreach. pose proof (reachable_one_hot s Hreach) as Hs.
    split; [exact Hs|]. intros s'. now apply step_one_hot.
Qed.

Lemma cond_one_hot_invariant_witness :
  reachable (boot (loaded add_halt_image) quiet_host)
  /\ cond_one_hot (boot (loaded add_halt_image) quiet_host)
  /\ (forall s',
        step (boot (loaded add_halt_image) quiet_host) = Done s' ->
        cond_one_hot s').
Proof.
  assert (Hreach : reachable (boot (loaded add_halt_image) quiet_host))
    by apply reach_boot.
  split; [exact Hreach|].
  exact (proj2 (proj2 cond_one_hot_invariant) _ Hreach).
Defined.

(** ** Trap vectors *)

Lemma trapcode_of_vector (v : Z) (t : trapcode) :
  trapcode_of v = Some t -> v = trap_vector t.
Proof.
  unfold trapcode_of.
  destruct v as [|p|p]; try discriminate.
  do 6 (destruct p as [p|p|]; try discriminate);
    intros [= <-]; reflexivity.
Qed.

Lemma trapcode_of_unknown (v : Z) :
  ~ In v [0x20; 0x21; 0x22; 0x23; 0x24; 0x25] -> trapcode_of v = None.
Proof.
  intros Hv. destruct (trapcode_of v) as [t|] eqn:E; [|reflexivity].
  apply trapcode_of_vector in E. exfalso. apply Hv.
  subst v. destruct t; cbn; tauto.
Qed.

Lemma puts_loop_no_abort (mem : Z -> Z) (cells : nat) :
  forall c h, puts_loop mem c cells h <> Aborted.
Proof.
  induction cells as [|cells IH]; intros c h; cbn [puts_loop].
  - discriminate.
  - destruct (nz (mem c)); [apply IH | discriminate].
Qed.

Lemma putsp_loop_no_abort (mem : Z -> Z) (cells : nat) :
  forall c h, putsp_loop mem c cells h <> Aborted.
Proof.
  induction cells as [|cells IH]; intros c h; cbn [putsp_loop].
  - discriminate.
  - destruct (nz (mem c)); [apply IH | discriminate].
Qed.

(** ** The link register *)

Lemma jsrInstr_R7 (instr : Z) (s : machine) :
  reg (jsrInstr instr s) R_R7 = reg s R_PC.
Proof.
  unfold jsrInstr. cbv zeta. now destruct (nz _).
Qed.

Lemma trapInstr_R7 (instr : Z) (s : machine) :
  (exists s', trapInstr instr s = Done s' /\ reg s' R_R7 = reg s R_PC)
  \/ (trapInstr instr s = OutOfBounds
      /\ (Z.land instr 0xFF = 0x22 \/ Z.land instr 0xFF = 0x24)).
Proof.
  unfold trapInstr. cbv zeta.
  destruct (trapcode_of (Z.land instr 0xFF)) as [[]|] eqn:E.
  - left. destruct (getchar _) as [c h]. eexists. split; [reflexivity|].
    now rewrite update_flags_reg by discriminate.
  - left. eexists. split; reflexivity.
  - destruct (puts_loop _ _ _ _) as [h| |] eqn:L.
    + left. eexists. split; reflexivity.
    + now apply puts_loop_no_abort in L.
    + right. split; [reflexivity|]. left. exact (trapcode_of_vector _ _ E).
  - left. destruct (getchar _) as [c h]. eexists. split; [reflexivity|].
    now rewrite update_flags_reg by discriminate.
  - destruct (putsp_loop _ _ _ _) as [h| |] eqn:L.
    + left. eexists. split; reflexivity.
    + now apply putsp_loop_no_abort in L.
    + right. split; [reflexivity|]. right. exact (trapcode_of_vector _ _ E).
  - left. eexists. split; reflexivity.
  - left. eexists. split; reflexivity.
Qed.

(** C5.  An instruction fetched at address [A]: if it is a JSR or JSRR, the
    turn completes and leaves [(A + 1) mod 2^16] in [R7]; if it is a TRAP,
    the turn leaves [(A + 1) mod 2^16] in [R7] whenever the service routine
    returns, and the only traps that do not return are PUTS and PUTSP whose
    string runs off the end of memory. *)
Theorem link_register (s s1 : machine) (instr : Z) :
  fetch s = (instr, s1) ->
  (opcode_of (Z.shiftr instr 12) = Some OP_JSR ->
   exists s', step s = Done s' /\ reg s' R_R7 = w16 (reg s R_PC + 1))
  /\ (opcode_of (Z.shiftr instr 12) = Some OP_TRAP ->
      (exists s', step s = Done s' /\ reg s' R_R7 = w16 (reg s R_PC + 1))
      \/ (step s = OutOfBounds
          /\ (Z.land instr 0xFF = 0x22 \/ Z.land instr 0xFF = 0x24))).
Proof.
  intros Hf. pose proof (fetch_pc s) as Hpc.
  unfold step. rewrite Hf in *. cbn [snd] in Hpc.
  unfold dispatch. cbv zeta. split; intros ->.
  - eexists. split; [reflexivity|]. now rewrite jsrInstr_R7.
  - rewrite <- Hpc. apply trapInstr_R7.
Qed.

Lemma link_register_witness :
  exists s',
    step (boot (upd zero_mem 0x3000 0x4803) quiet_host) = Done s'
    /\ reg s' R_R7 = 0x3001.
Proof.
  exact (proj1 (link_register (boot (upd zero_mem 0x3000 0x4803) quiet_host)
                  _ 0x4803 eq_refl) eq_refl).
Defined.

(** ** Trap service routines *)

(** C2, as the code has it.  A TRAP whose vector is none of 0x20..0x25
    returns without error, writes the incremented [PC] into [R7] as every
    TRAP does, and changes nothing else: the other registers ([COND]
    included), memory, the running flag and the host streams stay as they
    were. *)
Theorem trap_unknown_vector (instr : Z) (s : machine) :
  ~ In (Z.land instr 0xFF) [0x20; 0x21; 0x22; 0x23; 0x24; 0x25] ->
  exists s',
    trapInstr instr s = Done s'
    /\ reg s' R_R7 = reg s R_PC
    /\ (forall r, r <> R_R7 -> reg s' r = reg s r)
    /\ memory s' = memory s
    /\ running s' = running s
    /\ io s' = io s.
Proof.
  intros Hv. unfold trapInstr. cbv zeta.
  rewrite (trapcode_of_unknown _ Hv).
  eexists. split; [reflexivity|].
  cbn [reg memory running io set_reg].
  repeat apply conj; try reflexivity.
  intros r Hr. now apply upd_other.
Qed.

Lemma trap_unknown_vector_witness :
  exists s',
    trapInstr 0xF0FF typed_A = Done s'
    /\ reg s' R_R7 = 0x3001
    /\ reg s' R_COND = reg typed_A R_COND
    /\ io s' = io typed_A.
Proof.
  assert (Hv : ~ In (Z.land 0xF0FF 0xFF) [0x20; 0x21; 0x22; 0x23; 0x24; 0x25]).
  { cbn. intros [H|[H|[H|[H|[H|[H|[]]]]]]]; discriminate H. }
  destruct (trap_unknown_vector 0xF0FF typed_A Hv)
    as [s' [Hd [H7 [Hr [_ [_ Hio]]]]]].
  exists s'. split; [exact Hd|]. split; [exact H7|].
  split; [apply Hr; discriminate | exact Hio].
Defined.

(** C2 as stated fails: the unrecognised vector 0xFF, executed with
    [PC = 0x3001] and [R7 = 0], leaves 0x3001 in [R7]. *)
Lemma trap_unknown_vector_changes_R7 :
  ~ In (Z.land 0xF0FF 0xFF) [0x20; 0x21; 0x22; 0x23; 0x24; 0x25]
  /\ reg typed_A R_R7 = 0
  /\ exists s',
      trapInstr 0xF0FF typed_A = Done s'
      /\ reg s' R_R7 = 0x3001
      /\ reg s' R_R7 <> reg typed_A R_R7.
Proof.
  split.
  - cbn. intros [H|[H|[H|[H|[H|[H|[]]]]]]]; discriminate H.
  - split; [reflexivity|]. eexists. split; [reflexivity|].
    split; [reflexivity | discriminate].
Qed.

(** C6, as the code has it.  TRAP 0x20 with the byte [b] next on the host
    input: [R0] becomes [b], its high 8 bits zero; [COND] is the class of
    [R0]; [R7] receives the incremented [PC] as for every TRAP; no other
    register and no memory word changes; nothing is written to the host
    output, and the byte is consumed. *)
Theorem trap_getc (instr : Z) (s : machine) (b : Z) (rest : list Z) :
  Z.land instr 0xFF = 0x20 ->
  stdin (io s) = b :: rest ->
  0 <= b < 256 ->
  exists s',
    trapInstr instr s = Done s'
    /\ reg s' R_R0 = b
    /\ Z.shiftr (reg s' R_R0) 8 = 0
    /\ reg s' R_COND = flag_of (reg s' R_R0)
    /\ reg s' R_R7 = reg s R_PC
    /\ (forall r, r <> R_R0 -> r <> R_COND -> r <> R_R7 -> reg s' r = reg s r)
    /\ memory s' = memory s
    /\ stdout (io s') = stdout (io s)
    /\ stdin (io s') = rest
    /\ running s' = running s.
Proof.
  intros Hv Hin Hb. unfold trapInstr. cbv zeta. rewrite Hv.
  cbn [trapcode_of io set_reg].
  rewrite (getchar_next _ _ _ Hin).
  eexists. split; [reflexivity|].
  rewrite update_flags_eq.
  cbn [reg memory running io set_reg set_io stdin stdout].
  assert (Hw : w16 b = b) by (apply w16_small; lia).
  assert (H0 : upd (upd (reg s) R_R7 (reg s R_PC)) R_R0 (w16 b) R_R0 = b)
    by now rewrite upd_same.
  repeat apply conj; try reflexivity.
  - now rewrite upd_other, H0 by discriminate.
  - rewrite upd_other, H0 by discriminate.
    rewrite Z.shiftr_div_pow2 by lia. apply Z.div_small. lia.
  - intros r Hr0 Hrc Hr7. now rewrite !upd_other by assumption.
Qed.

Lemma trap_getc_witness :
  exists s',
    trapInstr 0xF020 typed_A = Done s'
    /\ reg s' R_R0 = 65
    /\ reg s' R_COND = flag_of (reg s' R_R0)
    /\ stdout (io s') = [].
Proof.
  destruct (trap_getc 0xF020 typed_A 65 [] eq_refl eq_refl ltac:(lia))
    as [s' [Hd [H0 [_ [Hc [_ [_ [_ [Hout _]]]]]]]]].
  exists s'. repeat apply conj; assumption.
Defined.

(** C6 as stated fails: GETC executed with [PC = 0x3001] and [R7 = 0]
    changes [R7], a register other than [R0] and [COND]. *)
Lemma trap_getc_changes_R7 :
  stdin (io typed_A) = [65]
  /\ reg typed_A R_R7 = 0
  /\ exists s',
      trapInstr 0xF020 typed_A = Done s'
      /\ reg s' R_R0 = 65
      /\ reg s' R_R7 = 0x3001
      /\ R_R7 <> R_R0 /\ R_R7 <> R_COND
      /\ reg s' R_R7 <> reg typed_A R_R7.
Proof.
  split; [reflexivity|]. split; [reflexivity|].
  eexists. split; [reflexivity|].
  repeat apply conj; try reflexivity; discriminate.
Qed.

(** ** Arithmetic *)

Lemma field3_not_special (x : Z) :
  Z.land x 7 <> R_COND /\ Z.land x 7 <> R_PC.
Proof.
  pose proof (land7_range x) as Hr. unfold R_COND, R_PC. lia.
Qed.

(** What [addInstr] does, with its second operand named. *)
Lemma addInstr_eq (instr : Z) (s : machine) :
  let dr := Z.land (Z.shiftr instr 9) 0x7 in
  let sr1 := Z.land (Z.shiftr instr 6) 0x7 in
  let operand2 :=
    if nz (Z.land (Z.shiftr instr 5) 0x1)
    then sign_extend (Z.land instr 0x1F) 5
    else reg s (Z.land instr 0x7) in
  reg (addInstr instr s) dr = w16 (reg s sr1 + operand2)
  /\ reg (addInstr instr s) R_COND = flag_of (w16 (reg s sr1 + operand2)).
Proof.
  intros dr sr1 operand2. unfold addInstr. cbv zeta.
  fold dr sr1. subst operand2.
  destruct (field3_not_special (Z.shiftr instr 9)) as [Hc _]. fold dr in Hc.
  destruct (nz (Z.land (Z.shiftr instr 5) 1)).
  - rewrite update_flags_cond, update_flags_reg by exact Hc.
    cbn [reg set_reg]. now rewrite upd_same.
  - rewrite update_flags_cond, update_flags_reg by exact Hc.
    cbn [reg set_reg]. now rewrite upd_same.
Qed.

(** C7.  ADD wraps modulo 2^16 and raises nothing.  With 1 as its second
    operand (the immediate, or the second source register): a first operand
    of 0x7FFF puts 0x8000 in the destination and [N] in [COND]; a first
    operand of 0xFFFF puts 0x0000 in the destination and [Z] in [COND]. *)
Theorem add_wraps (instr : Z) (s : machine) :
  let dr := Z.land (Z.shiftr instr 9) 0x7 in
  let sr1 := Z.land (Z.shiftr instr 6) 0x7 in
  let operand2 :=
    if nz (Z.land (Z.shiftr instr 5) 0x1)
    then sign_extend (Z.land instr 0x1F) 5
    else reg s (Z.land instr 0x7) in
  operand2 = 1 ->
  (reg s sr1 = 0x7FFF ->
   reg (addInstr instr s) dr = 0x8000
   /\ reg (addInstr instr s) R_COND = FL_NEG)
  /\ (reg s sr1 = 0xFFFF ->
      reg (addInstr instr s) dr = 0x0000
      /\ reg (addInstr instr s) R_COND = FL_ZRO).
Proof.
  intros dr sr1 operand2 H2.
  destruct (addInstr_eq instr s) as [Hd Hc].
  fold dr sr1 operand2 in Hd, Hc. rewrite H2 in Hd, Hc.
  split; intros H1; rewrite H1 in Hd, Hc; rewrite Hd, Hc; now split.
Qed.

Lemma add_wraps_witness :
  (reg (addInstr 0x1261 (set_reg R_R1 0x7FFF blank)) R_R1 = 0x8000
   /\ reg (addInstr 0x1261 (set_reg R_R1 0x7FFF blank)) R_COND = FL_NEG)
  /\ (reg (addInstr 0x1442 (set_reg R_R2 1 (set_reg R_R1 0xFFFF blank))) R_R2
      = 0x0000
      /\ reg (addInstr 0x1442 (set_reg R_R2 1 (set_reg R_R1 0xFFFF blank)))
           R_COND = FL_ZRO).
Proof.
  split.
  - exact (proj1 (add_wraps 0x1261 (set_reg R_R1 0x7FFF blank) eq_refl)
             eq_refl).
  - exact (proj2 (add_wraps 0x1442 (set_reg R_R2 1 (set_reg R_R1 0xFFFF blank))
                    eq_refl) eq_refl).
Defined.

(** ** Loads *)

Lemma update_flags_memory (r : Z) (s : machine) :
  memory (update_flags r s) = memory s.
Proof. now rewrite update_flags_eq. Qed.

Lemma update_flags_io (r : Z) (s : machine) : io (update_flags r s) = io s.
Proof. now rewrite update_flags_eq. Qed.

(** The value a read returns depends on the wrapped address, the memory and
    the host only. *)
Lemma mem_read_value_ext (a b : Z) (s t : machine) :
  w16 a = w16 b -> memory s = memory t -> io s = io t ->
  fst (mem_read a s) = fst (mem_read b t).
Proof.
  intros Ha Hm Hio. unfold mem_read. rewrite Ha, Hio.
  destruct (w16 b =? MR_KBSR); cbn [fst]; [|now rewrite Hm].
  destruct (check_key (io t)) as [[] h1]; cbn [io set_mem set_io memory].
  - destruct (getchar h1) as [c h2]. cbn [memory set_mem set_io].
    now rewrite Hm.
  - now rewrite Hm.
Qed.

Lemma ldInstr_eq (instr : Z) (s : machine) :
  let dr := Z.land (Z.shiftr instr 9) 0x7 in
  let v := fst (mem_read (reg s R_PC + sign_extend (Z.land instr 0x1FF) 9) s) in
  reg (ldInstr instr s) dr = v /\ reg (ldInstr instr s) R_COND = flag_of v.
Proof.
  intros dr v. unfold ldInstr. cbv zeta. fold dr. subst v.
  destruct (field3_not_special (Z.shiftr instr 9)) as [Hc _]. fold dr in Hc.
  destruct (mem_read _ s) as [v s1]. cbn [fst].
  rewrite update_flags_cond, update_flags_reg by exact Hc.
  cbn [reg set_reg]. now rewrite upd_same.
Qed.

Lemma ldrInstr_eq (instr : Z) (s : machine) :
  let dr := Z.land (Z.shiftr instr 9) 0x7 in
  let base := Z.land (Z.shiftr instr 6) 0x7 in
  let v := fst (mem_read (reg s base + sign_extend (Z.land instr 0x3F) 6) s) in
  reg (ldrInstr instr s) dr = v /\ reg (ldrInstr instr s) R_COND = flag_of v.
Proof.
  intros dr base v. unfold ldrInstr. cbv zeta. fold dr base. subst v.
  destruct (field3_not_special (Z.shiftr instr 9)) as [Hc _]. fold dr in Hc.
  destruct (mem_read _ s) as [v s1]. cbn [fst].
  rewrite update_flags_cond, update_flags_reg by exact Hc.
  cbn [reg set_reg]. now rewrite upd_same.
Qed.

Lemma leaInstr_eq (instr : Z) (s : machine) :
  let dr := Z.land (Z.shiftr instr 9) 0x7 in
  let a := w16 (reg s R_PC + sign_extend (Z.land instr 0x1FF) 9) in
  reg (leaInstr instr s) dr = a
  /\ reg (leaInstr instr s) R_PC = reg s R_PC
  /\ memory (leaInstr instr s) = memory s
  /\ io (leaInstr instr s) = io s.
Proof.
  intros dr a. unfold leaInstr. cbv zeta. fold dr. subst a.
  destruct (field3_not_special (Z.shiftr instr 9)) as [Hc Hp]. fold dr in Hc, Hp.
  rewrite update_flags_memory, update_flags_io.
  rewrite !update_flags_reg by (exact Hc || discriminate).
  cbn [reg set_reg memory io]. rewrite upd_same.
  rewrite upd_other by congruence. now repeat split.
Qed.

(** *** Decoding the instruction words *)

Ltac field :=
  intros; cbv beta delta [enc_LEA enc_LD enc_LDR];
  repeat rewrite Z.shiftr_div_pow2 by lia;
  try (change 0x7 with (Z.ones 3); rewrite Z.land_ones by lia);
  try (change 0x1FF with (Z.ones 9); rewrite Z.land_ones by lia);
  try (change 0x3F with (Z.ones 6); rewrite Z.land_ones by lia);
  change (2 ^ 12) with 4096; change (2 ^ 9) with 512;
  change (2 ^ 6) with 64; change (2 ^ 3) with 8;
  Z.div_mod_to_equations; lia.

Lemma enc_LEA_op (dr off9 : Z) :
  0 <= dr < 8 -> 0 <= off9 < 512 -> Z.shiftr (enc_LEA dr off9) 12 = 14.
Proof. field. Qed.

Lemma enc_LEA_dr (dr off9 : Z) :
  0 <= dr < 8 -> 0 <= off9 < 512 ->
  Z.land (Z.shiftr (enc_LEA dr off9) 9) 0x7 = dr.
Proof. field. Qed.

Lemma enc_LEA_off (dr off9 : Z) :
  0 <= dr < 8 -> 0 <= off9 < 512 -> Z.land (enc_LEA dr off9) 0x1FF = off9.
Proof. field. Qed.

Lemma enc_LD_op (dr off9 : Z) :
  0 <= dr < 8 -> 0 <= off9 < 512 -> Z.shiftr (enc_LD dr off9) 12 = 2.
Proof. field. Qed.

Lemma enc_LD_dr (dr off9 : Z) :
  0 <= dr < 8 -> 0 <= off9 < 512 ->
  Z.land (Z.shiftr (enc_LD dr off9) 9) 0x7 = dr.
Proof. field. Qed.

Lemma enc_LD_off (dr off9 : Z) :
  0 <= dr < 8 -> 0 <= off9 < 512 -> Z.land (enc_LD dr off9) 0x1FF = off9.
Proof. field. Qed.

Lemma enc_LDR_op (dr base off6 : Z) :
  0 <= dr < 8 -> 0 <= base < 8 -> 0 <= off6 < 64 ->
  Z.shiftr (enc_LDR dr base off6) 12 = 6.
Proof. field. Qed.

Lemma enc_LDR_dr (dr base off6 : Z) :
  0 <= dr < 8 -> 0 <= base < 8 -> 0 <= off6 < 64 ->
  Z.land (Z.shiftr (enc_LDR dr base off6) 9) 0x7 = dr.
Proof. field. Qed.

Lemma enc_LDR_base (dr base off6 : Z) :
  0 <= dr < 8 -> 0 <= base < 8 -> 0 <= off6 < 64 ->
  Z.land (Z.shiftr (enc_LDR dr base off6) 6) 0x7 = base.
Proof. field. Qed.

Lemma enc_LDR_off (dr base off6 : Z) :
  0 <= dr < 8 -> 0 <= base < 8 -> 0 <= off6 < 64 ->
  Z.land (enc_LDR dr base off6) 0x3F = off6.
Proof. field. Qed.

(** *** LEA then LDR against LD *)

(** When the fetch is a plain read, a turn of the loop executes the word
    stored at [PC]. *)
Lemma step_exec (s : machine) :
  w16 (reg s R_PC) <> MR_KBSR ->
  step s = exec (memory s (w16 (reg s R_PC))) s.
Proof.
  intros Hne. unfold step, fetch, exec. cbv zeta.
  now rewrite mem_read_plain by exact Hne.
Qed.

Section LeaLdr.

Variable s : machine.
Variables dr dr2 off : Z.
Hypothesis Hdr : 0 <= dr < 8.
Hypothesis Hdr2 : 0 <= dr2 < 8.
Hypothesis Hoff : 0 <= off < 512.

Lemma exec_LEA :
  exec (enc_LEA dr off) s =
  Done (leaInstr (enc_LEA dr off) (set_reg R_PC (w16 (reg s R_PC + 1)) s)).
Proof.
  unfold exec, dispatch. cbv zeta. now rewrite enc_LEA_op.
Qed.

Lemma exec_LD :
  exec (enc_LD dr2 off) s =
  Done (ldInstr (enc_LD dr2 off) (set_reg R_PC (w16 (reg s R_PC + 1)) s)).
Proof.
  unfold exec, dispatch. cbv zeta. now rewrite enc_LD_op.
Qed.

Lemma exec_LDR (t : machine) :
  exec (enc_LDR dr2 dr 0) t =
  Done (ldrInstr (enc_LDR dr2 dr 0)
          (set_reg R_PC (w16 (reg t R_PC + 1)) t)).
Proof.
  unfold exec, dispatch. cbv zeta. now rewrite enc_LDR_op.
Qed.

(** The two-instruction sequence and the single LD agree on the
    destination register and on [COND], whatever the registers and the
    addressed cell are. *)
Lemma lea_ldr_ld_agree :
  exists s1 s2 t,
    exec (enc_LEA dr off) s = Done s1
    /\ exec (enc_LDR dr2 dr 0) s1 = Done s2
    /\ exec (enc_LD dr2 off) s = Done t
    /\ reg s2 dr2 = reg t dr2
    /\ reg s2 R_COND = reg t R_COND.
Proof.
  eexists. eexists. eexists.
  split; [exact exec_LEA|]. split; [apply exec_LDR|].
  split; [exact exec_LD|].
  set (s0 := set_reg R_PC (w16 (reg s R_PC + 1)) s).
  set (s1 := leaInstr (enc_LEA dr off) s0).
  set (s1' := set_reg R_PC (w16 (reg s1 R_PC + 1)) s1).
  destruct (leaInstr_eq (enc_LEA dr off) s0) as [Ha [_ [Hm Hio]]].
  rewrite enc_LEA_dr, enc_LEA_off in Ha by assumption.
  fold s1 in Ha, Hm, Hio.
  destruct (ldrInstr_eq (enc_LDR dr2 dr 0) s1') as [Hv Hc].
  rewrite enc_LDR_dr, enc_LDR_base, enc_LDR_off in Hv by lia.
  rewrite enc_LDR_base, enc_LDR_off in Hc by lia.
  destruct (ldInstr_eq (enc_LD dr2 off) s0) as [Hv' Hc'].
  rewrite enc_LD_dr, enc_LD_off in Hv' by assumption.
  rewrite enc_LD_off in Hc' by assumption.
  assert (Heq :
    fst (mem_read (reg s1' dr + sign_extend 0 6) s1') =
    fst (mem_read (reg s0 R_PC + sign_extend off 9) s0)).
  { apply mem_read_value_ext.
    - assert (Hd : reg s1' dr = reg s1 dr).
      { unfold s1'. cbn [reg set_reg]. apply upd_other.
        unfold R_PC. lia. }
      rewrite Hd, Ha. change (sign_extend 0 6) with 0.
      rewrite Z.add_0_r. apply w16_idem.
    - exact Hm.
    - exact Hio. }
  rewrite Hv, Hc, Hv', Hc', Heq. now split.
Qed.

End LeaLdr.

(** C8.  From any machine state, with [dr] and [dr2] distinct and the
    addressed cell neither 0xFE00 nor 0xFE02: executing [LEA dr, off] and
    then, at the next address, [LDR dr2, dr, 0] leaves in [dr2] and in
    [COND] what executing [LD dr2, off] at the first address leaves there. *)
Theorem lea_ldr_equals_ld (s : machine) (dr dr2 off : Z) :
  0 <= dr < 8 -> 0 <= dr2 < 8 -> 0 <= off < 512 ->
  dr <> dr2 ->
  let cell := w16 (w16 (reg s R_PC + 1) + sign_extend off 9) in
  cell <> MR_KBSR -> cell <> MR_KBDR ->
  exists s1 s2 t,
    exec (enc_LEA dr off) s = Done s1
    /\ reg s1 R_PC = w16 (reg s R_PC + 1)
    /\ exec (enc_LDR dr2 dr 0) s1 = Done s2
    /\ exec (enc_LD dr2 off) s = Done t
    /\ reg s2 dr2 = reg t dr2
    /\ reg s2 R_COND = reg t R_COND.
Proof.
  intros Hdr Hdr2 Hoff _ cell _ _.
  destruct (lea_ldr_ld_agree s dr dr2 off Hdr Hdr2 Hoff)
    as [s1 [s2 [t [H1 [H2 [H3 [Hv Hc]]]]]]].
  exists s1, s2, t. repeat apply conj; try assumption.
  rewrite exec_LEA in H1 by assumption. injection H1 as <-.
  destruct (leaInstr_eq (enc_LEA dr off)
              (set_reg R_PC (w16 (reg s R_PC + 1)) s)) as [_ [Hp _]].
  rewrite Hp. cbn [reg set_reg]. apply upd_same.
Qed.

Lemma lea_ldr_equals_ld_witness :
  exists s1 s2 t,
    exec (enc_LEA 1 5) hi_machine = Done s1
    /\ reg s1 R_PC = 0x3002
    /\ exec (enc_LDR 2 1 0) s1 = Done s2
    /\ exec (enc_LD 2 5) hi_machine = Done t
    /\ reg s2 2 = reg t 2
    /\ reg s2 R_COND = reg t R_COND.
Proof.
  apply (lea_ldr_equals_ld hi_machine 1 2 5); try lia;
    vm_compute; discriminate.
Defined.

(** ** String output *)

Lemma low_bytes_S (mem : Z -> Z) (c : Z) (k : nat) :
  low_bytes mem c (S k) = Z.land (mem c) 0xFF :: low_bytes mem (c + 1) k.
Proof.
  unfold low_bytes. cbn [seq map]. rewrite Z.add_0_r. f_equal.
  rewrite <- seq_shift, map_map. apply map_ext.
  intros j. do 2 f_equal. lia.
Qed.

Lemma first_zero_some (mem : Z -> Z) (cells : nat) :
  forall c k,
    first_zero mem c cells = Some k ->
    (k < cells)%nat
    /\ mem (c + Z.of_nat k) = 0
    /\ (forall j, (j < k)%nat -> mem (c + Z.of_nat j) <> 0).
Proof.
  induction cells as [|cells IH]; intros c k; cbn [first_zero].
  - discriminate.
  - destruct (mem c =? 0) eqn:E.
    + intros [= <-]. apply Z.eqb_eq in E. rewrite Z.add_0_r.
      repeat split; [lia | exact E | lia].
    + apply Z.eqb_neq in E.
      destruct (first_zero mem (c + 1) cells) as [k'|] eqn:F; [|discriminate].
      intros [= <-]. destruct (IH _ _ F) as [Hlt [Hz Hnz]].
      repeat split.
      * lia.
      * replace (c + Z.of_nat (S k')) with (c + 1 + Z.of_nat k') by lia.
        exact Hz.
      * intros [|j] Hj; [now rewrite Z.add_0_r|].
        replace (c + Z.of_nat (S j)) with (c + 1 + Z.of_nat j) by lia.
        apply Hnz. lia.
Qed.

Lemma first_zero_none (mem : Z -> Z) (cells : nat) :
  forall c,
    first_zero mem c cells = None ->
    forall j, (j < cells)%nat -> mem (c + Z.of_nat j) <> 0.
Proof.
  induction cells as [|cells IH]; intros c; cbn [first_zero].
  - intros _ j Hj. lia.
  - destruct (mem c =? 0) eqn:E; [discriminate|].
    apply Z.eqb_neq in E.
    destruct (first_zero mem (c + 1) cells) eqn:F; [discriminate|].
    intros _ [|j] Hj; [now rewrite Z.add_0_r|].
    replace (c + Z.of_nat (S j)) with (c + 1 + Z.of_nat j) by lia.
    apply (IH _ F). lia.
Qed.

(** The PUTS loop stops at the first zero word within the array, having
    written the low bytes of the words before it, and leaves the array when
    there is none. *)
Lemma puts_loop_first_zero (mem : Z -> Z) (cells : nat) :
  forall c h,
    puts_loop mem c cells h =
    match first_zero mem c cells with
    | Some k =>
        Done (mkHost (pending h) (stdin h) (stdout h ++ low_bytes mem c k))
    | None => OutOfBounds
    end.
Proof.
  induction cells as [|cells IH]; intros c h; cbn [puts_loop first_zero].
  - reflexivity.
  - unfold nz. destruct (mem c =? 0); cbn [negb].
    + destruct h as [p i o]. cbn. now rewrite app_nil_r.
    + rewrite IH.
      destruct (first_zero mem (c + 1) cells) as [k|]; cbn [option_map];
        [|reflexivity].
      rewrite low_bytes_S. unfold putc. cbn [pending stdin stdout].
      rewrite <- app_assoc. cbn [app].
      now rewrite to_char_byte, low8_mod.
Qed.

(** C9.  TRAP 0x22 returns exactly when some address from [R0] up to the
    end of memory holds a zero word; it then has written, in address order,
    the low 8 bits of each word from [R0] up to the first zero word, that one
    excluded; when there is no zero word the scan leaves the 65536-word
    array. *)
Theorem puts_terminates_iff (instr : Z) (s : machine) :
  Z.land instr 0xFF = 0x22 ->
  let r0 := reg s R_R0 in
  let has_zero := exists a, r0 <= a < MEMORY_MAX /\ memory s a = 0 in
  ((exists s', trapInstr instr s = Done s') <-> has_zero)
  /\ (forall s',
        trapInstr instr s = Done s' ->
        exists k : nat,
          r0 + Z.of_nat k < MEMORY_MAX
          /\ memory s (r0 + Z.of_nat k) = 0
          /\ (forall j : nat, (j < k)%nat -> memory s (r0 + Z.of_nat j) <> 0)
          /\ stdout (io s') = stdout (io s) ++ low_bytes (memory s) r0 k)
  /\ (~ has_zero -> trapInstr instr s = OutOfBounds).
Proof.
  intros Hv r0 has_zero. unfold trapInstr. cbv zeta. rewrite Hv.
  cbn [trapcode_of]. cbn [memory io set_reg].
  change (reg (set_reg R_R7 (reg s R_PC) s) R_R0) with r0.
  rewrite puts_loop_first_zero.
  destruct (first_zero (memory s) r0 (cells_from r0)) as [k|] eqn:E;
    cbv beta iota.
  - destruct (first_zero_some _ _ _ _ E) as [Hlt [Hz Hnz]].
    assert (Hk : r0 + Z.of_nat k < MEMORY_MAX)
      by (unfold cells_from in Hlt; lia).
    assert (Hhas : has_zero).
    { exists (r0 + Z.of_nat k). split; [lia | exact Hz]. }
    split; [|split].
    + split; [intros _; exact Hhas | intros _; eexists; reflexivity].
    + intros s' [= <-]. exists k. cbn [io set_io stdout].
      repeat apply conj; try assumption. reflexivity.
    + intros Hno. now destruct Hno.
  - pose proof (first_zero_none _ _ _ E) as Hnz.
    assert (Hno : ~ has_zero).
    { intros [a [Ha Hz]]. apply (Hnz (Z.to_nat (a - r0))).
      - unfold cells_from. lia.
      - now replace (r0 + Z.of_nat (Z.to_nat (a - r0))) with a by lia. }
    split; [|split].
    + split; [intros [s' Hd]; discriminate Hd | intros Hh; now destruct Hno].
    + intros s' Hd. discriminate Hd.
    + reflexivity.
Qed.

Lemma puts_terminates_iff_witness :
  (exists s', trapInstr 0xF022 hi_machine = Done s')
  /\ (forall s',
        trapInstr 0xF022 hi_machine = Done s' ->
        exists k : nat,
          0x4000 + Z.of_nat k < MEMORY_MAX
          /\ hi_mem (0x4000 + Z.of_nat k) = 0
          /\ (forall j : nat, (j < k)%nat -> hi_mem (0x4000 + Z.of_nat j) <> 0)
          /\ stdout (io s') = [] ++ low_bytes hi_mem 0x4000 k).
Proof.
  destruct (puts_terminates_iff 0xF022 hi_machine eq_refl) as [Hiff [Hout _]].
  split; [|exact Hout].
  apply (proj2 Hiff). exists 0x4003. split; [|reflexivity].
  vm_compute. split; [discriminate | reflexivity].
Defined.

Example puts_hi_output :
  exists s',
    trapInstr 0xF022 hi_machine = Done s' /\ stdout (io s') = [72; 105; 33].
Proof. eexists. split; reflexivity. Qed.

Example puts_no_zero_word :
  trapInstr 0xF022 (set_reg R_R0 0xFFF0 (boot full_mem quiet_host))
  = OutOfBounds.
Proof. reflexivity. Qed.

(** ** Image loader *)




(** With origin zero [max_read] wraps to 0 and nothing is loaded. *)
Lemma image_read_origin_zero (file : list Z) :
  image_origin file = Some 0 -> image_read file = Some 0%nat.
Proof.
  intros Ho. unfold image_read. now rewrite Ho.
Qed.

(** C3, on the code.  The stream 00 00 12 34 declares origin 0 and carries
    one payload word, which fits: min(1, 0x10000 - 0) = 1.  The loader
    computes [max_read = (uint16_t)0x10000 = 0], reads no word and leaves
    memory as it was. *)
Theorem read_image_origin_zero :
  image_origin [0x00; 0x00; 0x12; 0x34] = Some 0
  /\ image_max_read 0 = 0
  /\ image_read [0x00; 0x00; 0x12; 0x34] = Some 0%nat
  /\ Z.min 1 (MEMORY_MAX - 0) = 1
  /\ forall s : machine,
      exists s',
        read_image_file [0x00; 0x00; 0x12; 0x34] s = Some s'
        /\ memory s' = memory s.
Proof.
  repeat apply conj; try reflexivity.
  intros s. eexists. split; reflexivity.
Qed.

Example image_origin_3000 :
  image_read add_halt_image = Some 3%nat
  /\ map (loaded add_halt_image) [0x3000; 0x3001; 0x3002; 0x3003]
     = [0x1020; 0x1027; 0xF025; 0].
Proof. split; reflexivity. Qed.

Example image_origin_FFFF :
  image_read [0xFF; 0xFF; 0x12; 0x34; 0x56; 0x78] = Some 1%nat
  /\ loaded [0xFF; 0xFF; 0x12; 0x34; 0x56; 0x78] 0xFFFF = 0x1234.
Proof. split; reflexivity. Qed.

(** ** The run loop on the spec's scenarios *)

Example run_add_halt :
  exists s',
    run 10 (boot (loaded add_halt_image) quiet_host) = Some (Done s')
    /\ reg s' R_R0 = 7
    /\ reg s' R_COND = FL_POS
    /\ running s' = false
    /\ stdout (io s') = bytes_of "HALT"%string ++ [10].
Proof. eexists. repeat apply conj; reflexivity. Qed.

Example run_rti_aborts :
  run 10 (boot (loaded [0x30; 0x00; 0x80; 0x00]) quiet_host) = Some Aborted.
Proof. reflexivity. Qed.

(** *** What the loader stores *)

Lemma store_items_spec (items : list Z) :
  forall p mem a,
    store_items p items mem a =
    if (p <=? a) && (a <? p + Z.of_nat (length items))
    then nth (Z.to_nat (a - p)) items 0
    else mem a.
Proof.
  induction items as [|x items IH]; intros p mem a.
  - cbn [store_items length]. destruct (p <=? a) eqn:E1; [|reflexivity].
    cbn [andb]. destruct (a <? p + Z.of_nat 0) eqn:E2; [|reflexivity].
    apply Z.leb_le in E1. apply Z.ltb_lt in E2. lia.
  - cbn [store_items]. rewrite IH. cbn [length].
    destruct (Z.eq_dec a p) as [->|Hne].
    + replace (p + 1 <=? p) with false by (symmetry; apply Z.leb_gt; lia).
      rewrite Z.leb_refl.
      replace (p <? p + Z.of_nat (S (length items))) with true
        by (symmetry; apply Z.ltb_lt; lia).
      cbn [andb]. rewrite upd_same, Z.sub_diag. reflexivity.
    + rewrite upd_other by exact Hne.
      destruct (p + 1 <=? a) eqn:E1.
      * apply Z.leb_le in E1.
        replace (p <=? a) with true by (symmetry; apply Z.leb_le; lia).
        replace (a <? p + Z.of_nat (S (length items)))
          with (a <? p + 1 + Z.of_nat (length items))
          by (f_equal; lia).
        cbn [andb].
        destruct (a <? p + 1 + Z.of_nat (length items)); [|reflexivity].
        replace (Z.to_nat (a - p)) with (S (Z.to_nat (a - (p + 1)))) by lia.
        reflexivity.
      * apply Z.leb_gt in E1.
        replace (p <=? a) with false by (symmetry; apply Z.leb_gt; lia).
        reflexivity.
Qed.

Lemma swap_loop_spec (read : nat) :
  forall p mem a,
    swap_loop read p mem a =
    if (p <=? a) && (a <? p + Z.of_nat read)
    then swap16 (mem a)
    else mem a.
Proof.
  induction read as [|read IH]; intros p mem a.
  - cbn [swap_loop]. destruct (p <=? a) eqn:E1; [|reflexivity].
    cbn [andb]. destruct (a <? p + Z.of_nat 0) eqn:E2; [|reflexivity].
    apply Z.leb_le in E1. apply Z.ltb_lt in E2. lia.
  - cbn [swap_loop]. rewrite IH.
    destruct (Z.eq_dec a p) as [->|Hne].
    + replace (p + 1 <=? p) with false by (symmetry; apply Z.leb_gt; lia).
      rewrite Z.leb_refl.
      replace (p <? p + Z.of_nat (S read)) with true
        by (symmetry; apply Z.ltb_lt; lia).
      cbn [andb]. now rewrite upd_same.
    + rewrite upd_other by exact Hne.
      replace (a <? p + Z.of_nat (S read)) with (a <? p + 1 + Z.of_nat read)
        by (f_equal; lia).
      destruct (p + 1 <=? a) eqn:E1.
      * apply Z.leb_le in E1.
        now replace (p <=? a) with true by (symmetry; apply Z.leb_le; lia).
      * apply Z.leb_gt in E1.
        now replace (p <=? a) with false by (symmetry; apply Z.leb_gt; lia).
Qed.

Lemma shifted_disjoint (x b : Z) :
  0 <= b < 256 -> Z.land (Z.shiftl x 8) b = 0.
Proof.
  intros Hb. apply Z.bits_inj'. intros n Hn.
  rewrite Z.land_spec, Z.bits_0.
  destruct (Z.lt_ge_cases n 8) as [Hlt|Hge].
  - now rewrite Z.shiftl_spec_low.
  - replace b with (b mod 2 ^ 8) by (apply Z.mod_small; exact Hb).
    rewrite Z.mod_pow2_bits_high by lia. apply andb_false_r.
Qed.

(** Two bytes read by the little-endian host and swapped are the
    big-endian word. *)
Lemma swap16_host_word (b0 b1 : Z) :
  0 <= b0 < 256 -> 0 <= b1 < 256 ->
  swap16 (b0 + 256 * b1) = be_word b0 b1.
Proof.
  intros H0 H1. unfold swap16, be_word, w16.
  assert (Hhi : Z.shiftr (b0 + 256 * b1) 8 = b1).
  { rewrite Z.shiftr_div_pow2 by lia. change (2 ^ 8) with 256.
    Z.div_mod_to_equations. lia. }
  rewrite Hhi.
  pose proof (Z.add_lor_land (Z.shiftl (b0 + 256 * b1) 8) b1) as Hadd.
  rewrite shifted_disjoint, Z.add_0_r in Hadd by exact H1.
  rewrite Hadd, Z.shiftl_mul_pow2 by lia. change (2 ^ 8) with 256.
  symmetry. apply (Z.mod_unique _ _ b1); lia.
Qed.


(** * Further properties *)

(** ** Sign extension and byte order *)

Lemma shifted_left_disjoint (y n x : Z) :
  0 <= n -> 0 <= x < 2 ^ n -> Z.land (Z.shiftl y n) x = 0.
Proof.
  intros Hn Hx. apply Z.bits_inj'. intros k Hk.
  rewrite Z.land_spec, Z.bits_0.
  destruct (Z.lt_ge_cases k n) as [Hlt|Hge].
  - now rewrite Z.shiftl_spec_low.
  - replace x with (x mod 2 ^ n) by (apply Z.mod_small; exact Hx).
    rewrite Z.mod_pow2_bits_high by lia. apply andb_false_r.
Qed.

Lemma pow2_halves (n : Z) : 1 <= n -> 2 ^ n = 2 * 2 ^ (n - 1).
Proof.
  intros Hn. replace n with (Z.succ (n - 1)) at 1 by lia.
  apply Z.pow_succ_r. lia.
Qed.

Lemma top_bit_test (n x : Z) :
  1 <= n -> 0 <= x < 2 ^ n ->
  nz (Z.land (Z.shiftr x (n - 1)) 1) = negb (x <? 2 ^ (n - 1)).
Proof.
  intros Hn Hx. pose proof (pow2_halves n Hn) as Hp.
  assert (Hq : 0 < 2 ^ (n - 1)) by (apply Z.pow_pos_nonneg; lia).
  rewrite Z.shiftr_div_pow2 by lia.
  change 1 with (Z.ones 1) at 2. rewrite Z.land_ones by lia.
  change (2 ^ 1) with 2.
  destruct (x <? 2 ^ (n - 1)) eqn:E.
  - apply Z.ltb_lt in E. now rewrite Z.div_small by lia.
  - apply Z.ltb_ge in E.
    replace (x / 2 ^ (n - 1)) with 1; [reflexivity|].
    apply (Z.div_unique _ _ _ (x - 2 ^ (n - 1))); lia.
Qed.

Lemma sign_extend_cases (n x : Z) :
  1 <= n <= 16 -> 0 <= x < 2 ^ n ->
  sign_extend x n = if x <? 2 ^ (n - 1) then x else x + 65536 - 2 ^ n.
Proof.
  intros Hn Hx. unfold sign_extend. rewrite top_bit_test by lia.
  destruct (x <? 2 ^ (n - 1)) eqn:E; cbn [negb]; [reflexivity|].
  pose proof (Z.add_lor_land (Z.shiftl 0xFFFF n) x) as Hadd.
  rewrite shifted_left_disjoint, Z.add_0_r in Hadd by lia.
  rewrite Z.lor_comm, Hadd, Z.shiftl_mul_pow2 by lia.
  assert (Hle : 2 ^ n <= 2 ^ 16) by (apply Z.pow_le_mono_r; lia).
  change (2 ^ 16) with 65536 in Hle.
  unfold w16. symmetry. apply (Z.mod_unique _ _ (2 ^ n - 1)); lia.
Qed.

Lemma sign_extend_wraps_signed (n x : Z) :
  1 <= n <= 16 -> 0 <= x < 2 ^ n -> sign_extend x n = w16 (signed n x).
Proof.
  intros Hn Hx. rewrite sign_extend_cases by assumption.
  pose proof (pow2_halves n ltac:(lia)) as Hp.
  assert (Hle : 2 ^ n <= 2 ^ 16) by (apply Z.pow_le_mono_r; lia).
  change (2 ^ 16) with 65536 in Hle.
  unfold signed, w16.
  destruct (x <? 2 ^ (n - 1)) eqn:E;
    [apply Z.ltb_lt in E | apply Z.ltb_ge in E].
  - now rewrite Z.mod_small by lia.
  - apply (Z.mod_unique _ _ (-1)); lia.
Qed.

(** X1.  For a field of [n] bits, [n] from 1 to 16, [sign_extend] is the
    16-bit two's-complement image of the field read as a signed number: the
    field itself when its top bit is clear, the field minus [2^n], wrapped
    to 16 bits, when it is set. *)
Theorem sign_extend_signed (n x : Z) :
  1 <= n <= 16 -> 0 <= x < 2 ^ n ->
  sign_extend x n = w16 (signed n x)
  /\ - 2 ^ (n - 1) <= signed n x < 2 ^ (n - 1)
  /\ word (sign_extend x n).
Proof.
  intros Hn Hx.
  pose proof (sign_extend_wraps_signed n x Hn Hx) as Hse.
  split; [exact Hse|]. split.
  - pose proof (pow2_halves n ltac:(lia)) as Hp. unfold signed.
    destruct (x <? 2 ^ (n - 1)) eqn:E;
      [apply Z.ltb_lt in E | apply Z.ltb_ge in E]; lia.
  - rewrite Hse. unfold word. apply w16_range.
Qed.

Lemma sign_extend_signed_witness :
  sign_extend 0x10 5 = 0xFFF0
  /\ sign_extend 0x0F 5 = 0x000F
  /\ signed 5 0x10 = -16.
Proof.
  assert (H5 : 1 <= 5 <= 16) by lia.
  assert (Ha : 0 <= 0x10 < 2 ^ 5) by (cbn; lia).
  assert (Hb : 0 <= 0x0F < 2 ^ 5) by (cbn; lia).
  split; [exact (proj1 (sign_extend_signed 5 0x10 H5 Ha))|].
  split; [exact (proj1 (sign_extend_signed 5 0x0F H5 Hb)) | reflexivity].
Defined.

Lemma swap16_split (x : Z) :
  0 <= x < 65536 -> swap16 x = 256 * (x mod 256) + x / 256.
Proof.
  intros Hx.
  replace x with (x mod 256 + 256 * (x / 256)) at 1
    by (Z.div_mod_to_equations; lia).
  rewrite swap16_host_word; [reflexivity | |];
    Z.div_mod_to_equations; lia.
Qed.

(** X2.  [swap16] exchanges the two bytes of a 16-bit value: the result is
    a 16-bit value, its low byte is the argument's high byte and its high
    byte the argument's low byte, so swapping twice gives the value back. *)
Theorem swap16_involutive (x : Z) :
  0 <= x < 65536 ->
  word (swap16 x)
  /\ swap16 x mod 256 = x / 256
  /\ swap16 x / 256 = x mod 256
  /\ swap16 (swap16 x) = x.
Proof.
  intros Hx. pose proof (swap16_split x Hx) as Hs.
  assert (Hw : 0 <= swap16 x < 65536) by apply w16_range.
  split; [exact Hw|].
  assert (Hlo : swap16 x mod 256 = x / 256)
    by (rewrite Hs; Z.div_mod_to_equations; lia).
  assert (Hhi : swap16 x / 256 = x mod 256)
    by (rewrite Hs; Z.div_mod_to_equations; lia).
  split; [exact Hlo|]. split; [exact Hhi|].
  rewrite (swap16_split (swap16 x) Hw), Hlo, Hhi.
  Z.div_mod_to_equations; lia.
Qed.

Lemma swap16_involutive_witness :
  swap16 0x1234 = 0x3412 /\ swap16 (swap16 0x1234) = 0x1234.
Proof.
  assert (Hx : 0 <= 0x1234 < 65536) by lia.
  split; [reflexivity|].
  exact (proj2 (proj2 (proj2 (swap16_involutive 0x1234 Hx)))).
Defined.

(** ** Condition codes after each handler *)

Lemma flag_of_word (v : Z) :
  word v ->
  (v = 0 -> flag_of v = FL_ZRO)
  /\ (0 < v < 0x8000 -> flag_of v = FL_POS)
  /\ (0x8000 <= v -> flag_of v = FL_NEG).
Proof.
  unfold word, flag_of, nz. intros Hv.
  rewrite Z.shiftr_div_pow2 by lia. change (2 ^ 15) with 32768.
  repeat split.
  - now intros ->.
  - intros Hp. replace (v =? 0) with false by (symmetry; apply Z.eqb_neq; lia).
    now rewrite Z.div_small by lia.
  - intros Hn. replace (v =? 0) with false by (symmetry; apply Z.eqb_neq; lia).
    replace (v / 32768) with 1; [reflexivity|].
    apply (Z.div_unique _ _ _ (v - 32768)); lia.
Qed.

(** A register written and then classified. *)
Lemma set_then_flags (dr v : Z) (s : machine) :
  dr <> R_COND ->
  reg (update_flags dr (set_reg dr v s)) dr = v
  /\ reg (update_flags dr (set_reg dr v s)) R_COND = flag_of v.
Proof.
  intros Hc. rewrite update_flags_cond, update_flags_reg by exact Hc.
  cbn [reg set_reg]. now rewrite upd_same.
Qed.

Ltac result_flags :=
  match goal with
  | |- context [update_flags ?dr (set_reg ?dr ?v ?s)] =>
      let H := fresh in
      destruct (set_then_flags dr v s
                  (proj1 (field3_not_special _))) as [H ->];
      now rewrite H
  end.

(** X3.  After ADD, AND, NOT, LD, LDI, LDR and LEA, [COND] is the class of
    the value the destination register now holds: [Z] for zero, [N] when bit
    15 is set, [P] otherwise. *)
Theorem result_sets_cond (instr : Z) (s : machine) :
  let dr := Z.land (Z.shiftr instr 9) 0x7 in
  let classified (s' : machine) := reg s' R_COND = flag_of (reg s' dr) in
  classified (addInstr instr s)
  /\ classified (andInstr instr s)
  /\ classified (notInstr instr s)
  /\ classified (ldInstr instr s)
  /\ classified (ldiInstr instr s)
  /\ classified (ldrInstr instr s)
  /\ classified (leaInstr instr s).
Proof.
  intros dr classified. subst classified. cbv beta.
  repeat apply conj.
  - unfold addInstr. cbv zeta. fold dr. destruct (nz _); result_flags.
  - unfold andInstr. cbv zeta. fold dr. destruct (nz _); result_flags.
  - unfold notInstr. cbv zeta. fold dr. result_flags.
  - unfold ldInstr. cbv zeta. fold dr. destruct (mem_read _ _). result_flags.
  - unfold ldiInstr. cbv zeta. fold dr. destruct (mem_read _ _).
    destruct (mem_read _ _). result_flags.
  - unfold ldrInstr. cbv zeta. fold dr. destruct (mem_read _ _). result_flags.
  - unfold leaInstr. cbv zeta. fold dr. result_flags.
Qed.

(** X4.  BR, JMP, JSR, ST, STI and STR never change [COND].  BR and JMP
    change no register but [PC]; JSR changes only [PC] and [R7]; the three
    stores change no register at all. *)
Theorem control_and_store_registers (instr : Z) (s : machine) :
  (forall r, r <> R_PC -> reg (brInstr instr s) r = reg s r)
  /\ (forall r, r <> R_PC -> reg (jmpInstr instr s) r = reg s r)
  /\ (forall r, r <> R_PC -> r <> R_R7 -> reg (jsrInstr instr s) r = reg s r)
  /\ (forall r, reg (stInstr instr s) r = reg s r)
  /\ (forall r, reg (stiInstr instr s) r = reg s r)
  /\ (forall r, reg (strInstr instr s) r = reg s r)
  /\ reg (brInstr instr s) R_COND = reg s R_COND
  /\ reg (jmpInstr instr s) R_COND = reg s R_COND
  /\ reg (jsrInstr instr s) R_COND = reg s R_COND.
Proof.
  assert (Hbr : forall r, r <> R_PC -> reg (brInstr instr s) r = reg s r).
  { intros r Hr. unfold brInstr. cbv zeta.
    destruct (nz _); [|reflexivity]. cbn [reg set_reg]. now apply upd_other. }
  assert (Hjmp : forall r, r <> R_PC -> reg (jmpInstr instr s) r = reg s r).
  { intros r Hr. unfold jmpInstr. cbn [reg set_reg]. now apply upd_other. }
  assert (Hjsr : forall r, r <> R_PC -> r <> R_R7 ->
                           reg (jsrInstr instr s) r = reg s r).
  { intros r Hr H7. unfold jsrInstr. cbv zeta.
    destruct (nz _); cbn [reg set_reg]; now rewrite !upd_other. }
  assert (Hsti : forall r, reg (stiInstr instr s) r = reg s r).
  { intros r. unfold stiInstr. cbv zeta.
    pose proof (mem_read_reg s (reg s R_PC + sign_extend (Z.land instr 0x1FF) 9))
      as Hr.
    destruct (mem_read _ s) as [a s1]. cbn [snd] in Hr.
    unfold mem_write, set_mem. cbn [reg]. now rewrite Hr. }
  split; [exact Hbr|]. split; [exact Hjmp|]. split; [exact Hjsr|].
  split; [reflexivity|]. split; [exact Hsti|]. split; [reflexivity|].
  split; [apply Hbr; discriminate|].
  split; [apply Hjmp; discriminate | apply Hjsr; discriminate].
Qed.

Lemma control_and_store_registers_witness :
  reg (jsrInstr 0x4803 (set_reg R_R1 0x1234 (boot zero_mem quiet_host))) R_R1
  = 0x1234
  /\ reg (stiInstr 0xB205 (set_reg R_R1 0x1234 (boot zero_mem quiet_host))) R_PC
     = 0x3000.
Proof.
  split.
  - refine (proj1 (proj2 (proj2 (control_and_store_registers 0x4803
              (set_reg R_R1 0x1234 (boot zero_mem quiet_host))))) R_R1 _ _);
      discriminate.
  - exact (proj1 (proj2 (proj2 (proj2 (proj2 (control_and_store_registers 0xB205
             (set_reg R_R1 0x1234 (boot zero_mem quiet_host)))))))
             R_PC).
Defined.

(** ** Branches *)

(** X5.  BR with [nzp = 0] leaves the machine as it is.  BR with
    [nzp = 0b111], on a one-hot [COND], always branches: [PC] becomes
    [PC] plus the signed 9-bit offset, modulo 2^16.  In general the branch
    is taken exactly when [nzp] and [COND] share a bit. *)
Theorem br_taken (instr : Z) (s : machine) :
  let nzp := Z.land (Z.shiftr instr 9) 0x7 in
  let off := Z.land instr 0x1FF in
  (nzp = 0 -> brInstr instr s = s)
  /\ (nzp = 7 -> cond_one_hot s ->
      reg (brInstr instr s) R_PC = w16 (reg s R_PC + signed 9 off))
  /\ (Z.land nzp (reg s R_COND) <> 0 ->
      reg (brInstr instr s) R_PC = w16 (reg s R_PC + signed 9 off))
  /\ (Z.land nzp (reg s R_COND) = 0 -> brInstr instr s = s).
Proof.
  intros nzp off.
  assert (Hoff : 0 <= off < 2 ^ 9).
  { unfold off. change 0x1FF with (Z.ones 9). rewrite Z.land_ones by lia.
    apply Z.mod_pos_bound. lia. }
  assert (Hpc : forall pc, w16 (pc + sign_extend off 9) = w16 (pc + signed 9 off)).
  { intros pc. rewrite (sign_extend_wraps_signed 9 off ltac:(lia) Hoff).
    unfold w16. now rewrite Zplus_mod_idemp_r. }
  assert (Htaken : Z.land nzp (reg s R_COND) <> 0 ->
                   reg (brInstr instr s) R_PC = w16 (reg s R_PC + signed 9 off)).
  { intros Hne. unfold brInstr. cbv zeta. fold nzp off. unfold nz.
    apply Z.eqb_neq in Hne. rewrite Hne. cbn [negb reg set_reg].
    rewrite upd_same. apply Hpc. }
  assert (Hnot : Z.land nzp (reg s R_COND) = 0 -> brInstr instr s = s).
  { intros He. unfold brInstr. cbv zeta. fold nzp. unfold nz.
    now rewrite He. }
  repeat apply conj; try assumption.
  - intros H0. apply Hnot. now rewrite H0.
  - intros H7 Hc. apply Htaken. rewrite H7.
    destruct Hc as [-> | [-> | ->]]; discriminate.
Qed.

Lemma br_taken_witness :
  reg (brInstr 0x0FFF (set_reg R_PC 0x3001 (boot zero_mem quiet_host))) R_PC
  = 0x3000.
Proof.
  refine (proj1 (proj2 (br_taken 0x0FFF
            (set_reg R_PC 0x3001 (boot zero_mem quiet_host)))) eq_refl _).
  right; left. reflexivity.
Defined.

(** ** Arithmetic and logic *)

Lemma not_not_word (v : Z) : word v -> w16 (Z.lnot (w16 (Z.lnot v))) = v.
Proof.
  unfold word, w16, Z.lnot. intros Hv.
  replace (Z.pred (- v) mod 65536) with (65535 - v)
    by (apply (Z.mod_unique _ _ (-1)); lia).
  symmetry. apply (Z.mod_unique _ _ (-1)); lia.
Qed.

(** X6.  NOT twice gives the bit pattern back: if a first NOT writes [d1]
    from [sr] and a second NOT writes [d2] from [d1], then [d2] holds what
    [sr] held and [COND] is the class of that value. *)
Theorem not_involution (i1 i2 : Z) (s : machine) :
  let sr := Z.land (Z.shiftr i1 6) 0x7 in
  let d1 := Z.land (Z.shiftr i1 9) 0x7 in
  let d2 := Z.land (Z.shiftr i2 9) 0x7 in
  Z.land (Z.shiftr i2 6) 0x7 = d1 ->
  word (reg s sr) ->
  reg (notInstr i2 (notInstr i1 s)) d2 = reg s sr
  /\ reg (notInstr i2 (notInstr i1 s)) R_COND = flag_of (reg s sr).
Proof.
  intros sr d1 d2 Hsrc Hw.
  assert (Ht : reg (notInstr i1 s) d1 = w16 (Z.lnot (reg s sr))).
  { unfold notInstr. cbv zeta. fold sr d1.
    now destruct (set_then_flags d1 (w16 (Z.lnot (reg s sr))) s
                    (proj1 (field3_not_special _))) as [-> _]. }
  set (t := notInstr i1 s) in *.
  unfold notInstr. cbv zeta. rewrite Hsrc. fold d2.
  destruct (set_then_flags d2 (w16 (Z.lnot (reg t d1))) t
              (proj1 (field3_not_special _))) as [H1 H2].
  rewrite H1, H2, Ht, not_not_word by exact Hw. now split.
Qed.

Lemma not_involution_witness :
  reg (notInstr 0x927F (notInstr 0x927F (set_reg R_R1 0x00F0 blank))) R_R1
  = 0x00F0
  /\ reg (notInstr 0x927F (notInstr 0x927F (set_reg R_R1 0x00F0 blank))) R_COND
     = FL_POS.
Proof.
  apply (not_involution 0x927F 0x927F (set_reg R_R1 0x00F0 blank) eq_refl).
  vm_compute. split; [discriminate | reflexivity].
Defined.

(** X7.  ADD in immediate mode adds the 5-bit immediate as a signed number
    from -16 to 15, modulo 2^16; in register mode it adds the second source
    register.  AND is the bitwise conjunction with the same second operand
    (the immediate sign-extended to 16 bits). *)
Theorem add_and_operands (instr : Z) (s : machine) :
  let dr := Z.land (Z.shiftr instr 9) 0x7 in
  let sr1 := Z.land (Z.shiftr instr 6) 0x7 in
  let imm := Z.land instr 0x1F in
  let sr2 := Z.land instr 0x7 in
  (Z.land (Z.shiftr instr 5) 0x1 <> 0 ->
   reg (addInstr instr s) dr = w16 (reg s sr1 + signed 5 imm)
   /\ reg (andInstr instr s) dr = Z.land (reg s sr1) (w16 (signed 5 imm)))
  /\ (Z.land (Z.shiftr instr 5) 0x1 = 0 ->
      reg (addInstr instr s) dr = w16 (reg s sr1 + reg s sr2)
      /\ reg (andInstr instr s) dr = Z.land (reg s sr1) (reg s sr2)).
Proof.
  intros dr sr1 imm sr2.
  assert (Himm : 0 <= imm < 2 ^ 5).
  { unfold imm. change 0x1F with (Z.ones 5). rewrite Z.land_ones by lia.
    apply Z.mod_pos_bound. lia. }
  pose proof (sign_extend_wraps_signed 5 imm ltac:(lia) Himm) as Hse.
  split; intros Hmode; unfold addInstr, andInstr; cbv zeta;
    fold dr sr1 imm sr2; unfold nz.
  - apply Z.eqb_neq in Hmode. rewrite Hmode. cbn [negb].
    split.
    + destruct (set_then_flags dr (w16 (reg s sr1 + sign_extend imm 5)) s
                  (proj1 (field3_not_special _))) as [-> _].
      rewrite Hse. unfold w16. now rewrite Zplus_mod_idemp_r.
    + destruct (set_then_flags dr (Z.land (reg s sr1) (sign_extend imm 5)) s
                  (proj1 (field3_not_special _))) as [-> _].
      now rewrite Hse.
  - rewrite Hmode. cbn [Z.eqb negb]. split.
    + now destruct (set_then_flags dr (w16 (reg s sr1 + reg s sr2)) s
                      (proj1 (field3_not_special _))) as [-> _].
    + now destruct (set_then_flags dr (Z.land (reg s sr1) (reg s sr2)) s
                      (proj1 (field3_not_special _))) as [-> _].
Qed.

Lemma add_and_operands_witness :
  reg (addInstr 0x127F (set_reg R_R1 5 blank)) R_R1 = 4
  /\ reg (andInstr 0x5260 (set_reg R_R1 0xBEEF blank)) R_R1 = 0.
Proof.
  split.
  - refine (proj1 (proj1 (add_and_operands 0x127F (set_reg R_R1 5 blank)) _)).
    discriminate.
  - refine (proj2 (proj1 (add_and_operands 0x5260 (set_reg R_R1 0xBEEF blank))
                     _)).
    discriminate.
Defined.

(** ** Stores and loads *)

(** X8.  A word written with [mem_write] is what [mem_read] returns from
    the same address, and reads of other addresses are not affected, as long
    as the address read is not the keyboard status register.  A value
    written to the keyboard status register is lost: the next read of it
    returns what the poll stores. *)
Theorem mem_write_then_read (s : machine) (a v : Z) :
  (w16 a <> MR_KBSR ->
   mem_read a (mem_write a v s) = (w16 v, mem_write a v s))
  /\ (forall b,
        w16 b <> w16 a -> w16 b <> MR_KBSR ->
        mem_read b (mem_write a v s) = (memory s (w16 b), mem_write a v s))
  /\ fst (mem_read MR_KBSR (mem_write MR_KBSR v s)) = fst (mem_read MR_KBSR s).
Proof.
  repeat apply conj.
  - intros Ha. rewrite mem_read_plain by exact Ha.
    unfold mem_write at 1. cbn [memory set_mem]. now rewrite upd_same.
  - intros b Hb Hk. rewrite mem_read_plain by exact Hk.
    unfold mem_write at 1. cbn [memory set_mem]. now rewrite upd_other.
  - unfold mem_read, mem_write. cbn [io set_mem]. cbv zeta.
    change (w16 MR_KBSR =? MR_KBSR) with true. cbv iota.
    destruct (check_key (io s)) as [[] h1]; cbn [io set_mem set_io];
      [|reflexivity].
    now destruct (getchar h1).
Qed.

Lemma mem_write_then_read_witness :
  mem_read 0x4000 (mem_write 0x4000 0xBEEF blank)
  = (0xBEEF, mem_write 0x4000 0xBEEF blank).
Proof.
  refine (proj1 (mem_write_then_read blank 0x4000 0xBEEF) _).
  discriminate.
Defined.

(** X9.  STI followed by LDI through the same pointer cell reads back what
    was stored: the destination of LDI receives the source of STI and
    [COND] its class, provided the pointer cell and the cell it points to
    are different cells and neither is the keyboard status register. *)
Theorem sti_then_ldi (i1 i2 : Z) (s : machine) :
  let sr := Z.land (Z.shiftr i1 9) 0x7 in
  let dr := Z.land (Z.shiftr i2 9) 0x7 in
  let p := w16 (reg s R_PC + sign_extend (Z.land i1 0x1FF) 9) in
  let target := w16 (memory s p) in
  let s1 := stiInstr i1 s in
  let s2 := set_reg R_PC (w16 (reg s1 R_PC + 1)) s1 in
  w16 (reg s2 R_PC + sign_extend (Z.land i2 0x1FF) 9) = p ->
  p <> MR_KBSR -> target <> MR_KBSR -> target <> p ->
  word (reg s sr) ->
  memory s1 target = reg s sr
  /\ reg (ldiInstr i2 s2) dr = reg s sr
  /\ reg (ldiInstr i2 s2) R_COND = flag_of (reg s sr).
Proof.
  intros sr dr p target s1 s2 Hsame Hp Ht Hne Hw.
  assert (Hs1 : s1 = mem_write (memory s p) (reg s sr) s).
  { unfold s1, stiInstr. cbv zeta. fold sr.
    rewrite mem_read_plain by exact Hp. reflexivity. }
  assert (Hm2 : memory s2 = upd (memory s) target (reg s sr)).
  { unfold s2. cbn [memory set_reg]. rewrite Hs1.
    unfold mem_write. cbn [memory set_mem].
    now rewrite (w16_small (reg s sr)) by exact Hw. }
  assert (Hv : fst (mem_read (reg s2 R_PC + sign_extend (Z.land i2 0x1FF) 9) s2)
               = memory s p).
  { rewrite mem_read_plain by (rewrite Hsame; exact Hp).
    cbn [fst]. rewrite Hsame, Hm2. apply upd_other. congruence. }
  split.
  - rewrite Hs1. unfold mem_write. cbn [memory set_mem].
    fold target. rewrite upd_same. now apply w16_small.
  - unfold ldiInstr. cbv zeta. fold dr.
    rewrite mem_read_plain in * by (rewrite Hsame; exact Hp).
    cbn [fst] in Hv. rewrite Hv.
    rewrite mem_read_plain by exact Ht.
    destruct (set_then_flags dr (memory s2 (w16 (memory s p))) s2
                (proj1 (field3_not_special _))) as [-> ->].
    fold target. rewrite Hm2, upd_same. now split.
Qed.

Lemma sti_then_ldi_witness :
  let s := set_reg R_R1 0x1234
             (set_reg R_PC 0x3001 (boot (upd zero_mem 0x3006 0x4000) quiet_host)) in
  reg (ldiInstr 0xA404 (set_reg R_PC 0x3002 (stiInstr 0xB205 s))) R_R2 = 0x1234.
Proof.
  intros s.
  refine (proj1 (proj2 (sti_then_ldi 0xB205 0xA404 s _ _ _ _ _)));
    vm_compute; try reflexivity; try discriminate.
  split; [discriminate | reflexivity].
Defined.

(** ** Subroutine call and return *)

Ltac field_of enc :=
  intros; unfold enc;
  repeat rewrite Z.shiftr_div_pow2 by lia;
  try (change 0x7 with (Z.ones 3); rewrite Z.land_ones by lia);
  try (change 0x7FF with (Z.ones 11); rewrite Z.land_ones by lia);
  try (change 0xFF with (Z.ones 8); rewrite Z.land_ones by lia);
  change (2 ^ 12) with 4096; change (2 ^ 11) with 2048;
  change (2 ^ 9) with 512; change (2 ^ 8) with 256;
  change (2 ^ 6) with 64; change (2 ^ 3) with 8; change (2 ^ 1) with 2;
  Z.div_mod_to_equations; lia.

Lemma enc_JSR_op (off11 : Z) :
  0 <= off11 < 2048 -> Z.shiftr (enc_JSR off11) 12 = 4.
Proof. field_of enc_JSR. Qed.

Lemma enc_JSR_long (off11 : Z) :
  0 <= off11 < 2048 -> Z.land (Z.shiftr (enc_JSR off11) 11) 1 = 1.
Proof.
  intros Ho. unfold enc_JSR. rewrite Z.shiftr_div_pow2 by lia.
  replace ((0x4800 + off11) / 2 ^ 11) with 9; [reflexivity|].
  change (2 ^ 11) with 2048. Z.div_mod_to_equations. lia.
Qed.

Lemma enc_JSR_off (off11 : Z) :
  0 <= off11 < 2048 -> Z.land (enc_JSR off11) 0x7FF = off11.
Proof. field_of enc_JSR. Qed.

Lemma enc_JSRR_op (base : Z) :
  0 <= base < 8 -> Z.shiftr (enc_JSRR base) 12 = 4.
Proof. field_of enc_JSRR. Qed.

Lemma enc_JSRR_long (base : Z) :
  0 <= base < 8 -> Z.land (Z.shiftr (enc_JSRR base) 11) 1 = 0.
Proof.
  intros Hb. unfold enc_JSRR. rewrite Z.shiftr_div_pow2 by lia.
  replace ((0x4000 + base * 64) / 2 ^ 11) with 8; [reflexivity|].
  change (2 ^ 11) with 2048. Z.div_mod_to_equations. lia.
Qed.

Lemma enc_JSRR_base (base : Z) :
  0 <= base < 8 -> Z.land (Z.shiftr (enc_JSRR base) 6) 0x7 = base.
Proof. field_of enc_JSRR. Qed.

Lemma enc_JMP_op (base : Z) :
  0 <= base < 8 -> Z.shiftr (enc_JMP base) 12 = 12.
Proof. field_of enc_JMP. Qed.

Lemma enc_JMP_base (base : Z) :
  0 <= base < 8 -> Z.land (Z.shiftr (enc_JMP base) 6) 0x7 = base.
Proof. field_of enc_JMP. Qed.

Lemma enc_TRAP_op (vector : Z) :
  0 <= vector < 256 -> Z.shiftr (enc_TRAP vector) 12 = 15.
Proof. field_of enc_TRAP. Qed.

Lemma enc_TRAP_vector (vector : Z) :
  0 <= vector < 256 -> Z.land (enc_TRAP vector) 0xFF = vector.
Proof. field_of enc_TRAP. Qed.

Lemma exec_JSR (off11 : Z) (s : machine) :
  0 <= off11 < 2048 ->
  exec (enc_JSR off11) s =
  Done (jsrInstr (enc_JSR off11) (set_reg R_PC (w16 (reg s R_PC + 1)) s)).
Proof.
  intros Ho. unfold exec, dispatch. cbv zeta. now rewrite enc_JSR_op.
Qed.

Lemma exec_JSRR (base : Z) (s : machine) :
  0 <= base < 8 ->
  exec (enc_JSRR base) s =
  Done (jsrInstr (enc_JSRR base) (set_reg R_PC (w16 (reg s R_PC + 1)) s)).
Proof.
  intros Hb. unfold exec, dispatch. cbv zeta. now rewrite enc_JSRR_op.
Qed.

Lemma exec_JMP (base : Z) (s : machine) :
  0 <= base < 8 ->
  exec (enc_JMP base) s =
  Done (jmpInstr (enc_JMP base) (set_reg R_PC (w16 (reg s R_PC + 1)) s)).
Proof.
  intros Hb. unfold exec, dispatch. cbv zeta. now rewrite enc_JMP_op.
Qed.

(** X10.  JSR at address [A] jumps to [A + 1] plus its signed 11-bit
    offset, modulo 2^16, and leaves [A + 1] in [R7]; a later [JMP R7] (RET),
    executed from any state whose [R7] still holds that value, continues at
    the instruction after the JSR. *)
Theorem jsr_then_ret (off11 : Z) (s t : machine) :
  0 <= off11 < 2048 ->
  exists s1,
    exec (enc_JSR off11) s = Done s1
    /\ reg s1 R_PC = w16 (reg s R_PC + 1 + signed 11 off11)
    /\ reg s1 R_R7 = w16 (reg s R_PC + 1)
    /\ (reg t R_R7 = reg s1 R_R7 ->
        exists t',
          exec (enc_JMP 7) t = Done t'
          /\ reg t' R_PC = w16 (reg s R_PC + 1)
          /\ (forall r, r <> R_PC -> reg t' r = reg t r)
          /\ memory t' = memory t).
Proof.
  intros Ho. rewrite exec_JSR by exact Ho. eexists. split; [reflexivity|].
  set (s0 := set_reg R_PC (w16 (reg s R_PC + 1)) s).
  assert (Hpc0 : reg s0 R_PC = w16 (reg s R_PC + 1)) by apply upd_same.
  assert (H7 : reg (jsrInstr (enc_JSR off11) s0) R_R7 = w16 (reg s R_PC + 1))
    by now rewrite jsrInstr_R7.
  split; [|split; [exact H7|]].
  - unfold jsrInstr. cbv zeta. rewrite enc_JSR_long, enc_JSR_off by exact Ho.
    cbn [nz Z.eqb negb reg set_reg]. rewrite upd_same.
    rewrite upd_other by discriminate. rewrite Hpc0.
    rewrite (sign_extend_wraps_signed 11 off11 ltac:(lia) ltac:(cbn; lia)).
    unfold w16. rewrite Zplus_mod_idemp_r, Zplus_mod_idemp_l. reflexivity.
  - intros Ht. rewrite exec_JMP by lia. eexists. split; [reflexivity|].
    unfold jmpInstr. cbv zeta. rewrite enc_JMP_base by lia.
    cbn [reg set_reg memory].
    repeat apply conj; try reflexivity.
    + rewrite upd_same, upd_other by discriminate.
      change 7 with R_R7. now rewrite Ht, H7.
    + intros r Hr. now rewrite !upd_other by exact Hr.
Qed.

Lemma jsr_then_ret_witness :
  exists s1,
    exec (enc_JSR 0x7FE) (boot zero_mem quiet_host) = Done s1
    /\ reg s1 R_PC = 0x2FFF
    /\ reg s1 R_R7 = 0x3001.
Proof.
  destruct (jsr_then_ret 0x7FE (boot zero_mem quiet_host) blank ltac:(lia))
    as [s1 [He [Hpc [H7 _]]]].
  exists s1. repeat apply conj; assumption.
Defined.

(** X11.  JSRR through a base register other than [R7] jumps to the
    address that register holds.  JSRR through [R7] does not jump to the
    old contents of [R7]: [R7] is overwritten with the incremented [PC]
    before it is read, so execution continues at the next instruction.  In
    both cases [R7] ends up holding the incremented [PC]. *)
Theorem jsrr_base (base : Z) (s : machine) :
  0 <= base < 8 ->
  exists s1,
    exec (enc_JSRR base) s = Done s1
    /\ reg s1 R_R7 = w16 (reg s R_PC + 1)
    /\ (base <> 7 -> reg s1 R_PC = reg s base)
    /\ (base = 7 -> reg s1 R_PC = w16 (reg s R_PC + 1)).
Proof.
  intros Hb. rewrite exec_JSRR by exact Hb. eexists. split; [reflexivity|].
  set (s0 := set_reg R_PC (w16 (reg s R_PC + 1)) s).
  assert (Hpc0 : reg s0 R_PC = w16 (reg s R_PC + 1)) by apply upd_same.
  split; [now rewrite jsrInstr_R7|].
  unfold jsrInstr. cbv zeta. rewrite enc_JSRR_long, enc_JSRR_base by exact Hb.
  cbn [nz Z.eqb negb reg set_reg]. rewrite upd_same. split.
  - intros H7. rewrite upd_other by (unfold R_R7; lia).
    unfold s0. cbn [reg set_reg]. apply upd_other. unfold R_PC. lia.
  - intros ->. change 7 with R_R7. now rewrite upd_same.
Qed.

Lemma jsrr_base_witness :
  exists s1,
    exec (enc_JSRR 7) (set_reg R_R7 0x5000 (boot zero_mem quiet_host)) = Done s1
    /\ reg s1 R_PC = 0x3001.
Proof.
  destruct (jsrr_base 7 (set_reg R_R7 0x5000 (boot zero_mem quiet_host))
              ltac:(lia)) as [s1 [He [_ [_ Hpc]]]].
  exists s1. split; [exact He | exact (Hpc eq_refl)].
Defined.

(** ** Character output and input *)

Lemma to_char_zero (x : Z) : (to_char x =? 0) = (Z.land x 0xFF =? 0).
Proof.
  rewrite low8_mod. unfold to_char.
  destruct (x mod 256 =? 0) eqn:E;
    [apply Z.eqb_eq in E; apply Z.eqb_eq | apply Z.eqb_neq in E; apply Z.eqb_neq];
    Z.div_mod_to_equations; lia.
Qed.

Lemma low8_idem (x : Z) : Z.land (Z.land x 0xFF) 0xFF = Z.land x 0xFF.
Proof. now rewrite <- Z.land_assoc, Z.land_diag. Qed.

Lemma putc_char (x : Z) (h : host) :
  putc (to_char x) h =
  mkHost (pending h) (stdin h) (stdout h ++ [Z.land x 0xFF]).
Proof. unfold putc. now rewrite to_char_byte, low8_mod. Qed.

Lemma put_bytes_streams (bs : list Z) :
  forall h,
    pending (put_bytes bs h) = pending h
    /\ stdin (put_bytes bs h) = stdin h
    /\ stdout (put_bytes bs h) = stdout h ++ map (fun c => c mod 256) bs.
Proof.
  unfold put_bytes.
  induction bs as [|b bs IH]; intros h; cbn [fold_left map].
  - now rewrite app_nil_r.
  - destruct (IH (putc b h)) as [-> [-> ->]]. unfold putc.
    cbn [pending stdin stdout]. now rewrite <- app_assoc.
Qed.

Lemma packed_bytes_S (mem : Z -> Z) (c : Z) (k : nat) :
  packed_bytes mem c (S k) = word_chars (mem c) ++ packed_bytes mem (c + 1) k.
Proof.
  unfold packed_bytes. cbn [seq flat_map]. rewrite Z.add_0_r. f_equal.
  rewrite <- seq_shift, !flat_map_concat_map, map_map. f_equal.
  apply map_ext. intros j. do 2 f_equal. lia.
Qed.

(** The PUTSP loop, like the PUTS loop, stops at the first zero word. *)
Lemma putsp_loop_first_zero (mem : Z -> Z) (cells : nat) :
  forall c h,
    putsp_loop mem c cells h =
    match first_zero mem c cells with
    | Some k =>
        Done (mkHost (pending h) (stdin h) (stdout h ++ packed_bytes mem c k))
    | None => OutOfBounds
    end.
Proof.
  induction cells as [|cells IH]; intros c h; cbn [putsp_loop first_zero].
  - reflexivity.
  - unfold nz at 1. destruct (mem c =? 0); cbn [negb].
    + destruct h as [p i o]. cbn. now rewrite app_nil_r.
    + rewrite IH.
      destruct (first_zero mem (c + 1) cells) as [k|]; cbn [option_map];
        [|reflexivity].
      rewrite packed_bytes_S. unfold word_chars, nz.
      rewrite to_char_zero, !putc_char. cbn [pending stdin stdout].
      rewrite low8_idem.
      destruct (Z.land (Z.shiftr (mem c) 8) 0xFF =? 0);
        cbn [negb pending stdin stdout app];
        now rewrite <- !app_assoc.
Qed.

(** X12.  TRAP 0x24 (PUTSP) returns exactly when a zero word lies between
    [R0] and the end of memory; it then has written, for each word before
    the first zero word and in address order, the low byte followed by the
    high byte unless that is zero; with no zero word the scan leaves the
    array. *)
Theorem putsp_terminates_iff (instr : Z) (s : machine) :
  Z.land instr 0xFF = 0x24 ->
  let r0 := reg s R_R0 in
  let has_zero := exists a, r0 <= a < MEMORY_MAX /\ memory s a = 0 in
  ((exists s', trapInstr instr s = Done s') <-> has_zero)
  /\ (forall s',
        trapInstr instr s = Done s' ->
        exists k : nat,
          r0 + Z.of_nat k < MEMORY_MAX
          /\ memory s (r0 + Z.of_nat k) = 0
          /\ (forall j : nat, (j < k)%nat -> memory s (r0 + Z.of_nat j) <> 0)
          /\ stdout (io s') = stdout (io s) ++ packed_bytes (memory s) r0 k)
  /\ (~ has_zero -> trapInstr instr s = OutOfBounds).
Proof.
  intros Hv r0 has_zero. unfold trapInstr. cbv zeta. rewrite Hv.
  cbn [trapcode_of]. cbn [memory io set_reg].
  change (reg (set_reg R_R7 (reg s R_PC) s) R_R0) with r0.
  rewrite putsp_loop_first_zero.
  destruct (first_zero (memory s) r0 (cells_from r0)) as [k|] eqn:E;
    cbv beta iota.
  - destruct (first_zero_some _ _ _ _ E) as [Hlt [Hz Hnz]].
    assert (Hk : r0 + Z.of_nat k < MEMORY_MAX)
      by (unfold cells_from in Hlt; lia).
    assert (Hhas : has_zero).
    { exists (r0 + Z.of_nat k). split; [lia | exact Hz]. }
    split; [|split].
    + split; [intros _; exact Hhas | intros _; eexists; reflexivity].
    + intros s' [= <-]. exists k. cbn [io set_io stdout].
      repeat apply conj; try assumption. reflexivity.
    + intros Hno. now destruct Hno.
  - pose proof (first_zero_none _ _ _ E) as Hnz.
    assert (Hno : ~ has_zero).
    { intros [a [Ha Hz]]. apply (Hnz (Z.to_nat (a - r0))).
      - unfold cells_from. lia.
      - now replace (r0 + Z.of_nat (Z.to_nat (a - r0))) with a by lia. }
    split; [|split].
    + split; [intros [s' Hd]; discriminate Hd | intros Hh; now destruct Hno].
    + intros s' Hd. discriminate Hd.
    + reflexivity.
Qed.

Lemma putsp_terminates_iff_witness :
  exists s',
    trapInstr 0xF024
      (set_reg R_R0 0x4000
         (boot (upd (upd zero_mem 0x4000 0x6948) 0x4001 0x0021) quiet_host))
    = Done s'.
Proof.
  refine (proj2 (proj1 (putsp_terminates_iff 0xF024 _ eq_refl)) _).
  exists 0x4002. split; [vm_compute; split; [discriminate|reflexivity]|].
  reflexivity.
Defined.

Example putsp_hi_output :
  exists s',
    trapInstr 0xF024
      (set_reg R_R0 0x4000
         (boot (upd (upd zero_mem 0x4000 0x6948) 0x4001 0x0021) quiet_host))
    = Done s'
    /\ stdout (io s') = [72; 105; 33].
Proof. eexists. split; reflexivity. Qed.

(** X13.  TRAP 0x21 (OUT) writes one byte, the low 8 bits of [R0], and
    returns; apart from [R7], which receives the incremented [PC], no
    register changes, and memory, the running flag and the host input are
    untouched. *)
Theorem trap_out (instr : Z) (s : machine) :
  Z.land instr 0xFF = 0x21 ->
  exists s',
    trapInstr instr s = Done s'
    /\ stdout (io s') = stdout (io s) ++ [Z.land (reg s R_R0) 0xFF]
    /\ stdin (io s') = stdin (io s)
    /\ reg s' R_R7 = reg s R_PC
    /\ (forall r, r <> R_R7 -> reg s' r = reg s r)
    /\ memory s' = memory s
    /\ running s' = running s.
Proof.
  intros Hv. unfold trapInstr. cbv zeta. rewrite Hv. cbn [trapcode_of].
  eexists. split; [reflexivity|].
  cbn [io reg memory running set_io set_reg]. rewrite putc_char.
  cbn [stdin stdout].
  repeat apply conj; try reflexivity.
  intros r Hr. now apply upd_other.
Qed.

Lemma trap_out_witness :
  exists s',
    trapInstr 0xF021 (set_reg R_R0 0x0141 (boot zero_mem quiet_host)) = Done s'
    /\ stdout (io s') = [0x41].
Proof.
  destruct (trap_out 0xF021 (set_reg R_R0 0x0141 (boot zero_mem quiet_host))
              eq_refl) as [s' [Hd [Hout _]]].
  exists s'. split; assumption.
Defined.

(** X14.  TRAP 0x23 (IN) with an ASCII byte [b] next on the host input
    writes the prompt "Enter a character: " and then [b] itself, consumes
    [b], and leaves [b] in [R0] and its class in [COND]; memory is
    untouched. *)
Theorem trap_in (instr : Z) (s : machine) (b : Z) (rest : list Z) :
  Z.land instr 0xFF = 0x23 ->
  stdin (io s) = b :: rest ->
  0 <= b < 128 ->
  exists s',
    trapInstr instr s = Done s'
    /\ stdout (io s') =
       stdout (io s) ++ bytes_of "Enter a character: "%string ++ [b]
    /\ stdin (io s') = rest
    /\ reg s' R_R0 = b
    /\ reg s' R_COND = flag_of b
    /\ reg s' R_R7 = reg s R_PC
    /\ memory s' = memory s
    /\ running s' = running s.
Proof.
  intros Hv Hin Hb. unfold trapInstr. cbv zeta. rewrite Hv. cbn [trapcode_of].
  cbn [io set_reg].
  destruct (put_bytes_streams (bytes_of "Enter a character: "%string) (io s))
    as [Hp [Hi Ho]].
  rewrite (getchar_next _ b rest) by (now rewrite Hi).
  assert (Hc : to_char b = b).
  { unfold to_char. rewrite Z.mod_small by lia. lia. }
  rewrite Hc. eexists. split; [reflexivity|].
  rewrite update_flags_eq.
  cbn [io reg memory running set_io set_reg stdin stdout putc].
  rewrite Ho, (w16_small b), (Z.mod_small b) by lia.
  repeat apply conj; try reflexivity.
  now rewrite <- app_assoc.
Qed.

Lemma trap_in_witness :
  exists s',
    trapInstr 0xF023 typed_A = Done s'
    /\ reg s' R_R0 = 65
    /\ stdin (io s') = [].
Proof.
  destruct (trap_in 0xF023 typed_A 65 [] eq_refl eq_refl ltac:(lia))
    as [s' [Hd [_ [Hin [H0 _]]]]].
  exists s'. repeat apply conj; assumption.
Defined.

(** X15.  At end of input [getchar] returns -1, which the 16-bit cells keep
    as 0xFFFF: TRAP 0x20 then leaves 0xFFFF in [R0] and [N] in [COND], and
    a poll of the keyboard status register that finds the probe ready
    stores 0xFFFF in the keyboard data register. *)
Theorem end_of_input (s : machine) :
  stdin (io s) = [] ->
  (forall instr,
     Z.land instr 0xFF = 0x20 ->
     exists s',
       trapInstr instr s = Done s'
       /\ reg s' R_R0 = 0xFFFF
       /\ reg s' R_COND = FL_NEG
       /\ io s' = io s)
  /\ (forall h1,
        check_key (io s) = (true, h1) ->
        exists s',
          mem_read MR_KBSR s = (0x8000, s')
          /\ memory s' MR_KBDR = 0xFFFF
          /\ io s' = h1).
Proof.
  intros Hin. split.
  - intros instr Hv. unfold trapInstr. cbv zeta. rewrite Hv.
    cbn [trapcode_of io set_reg]. unfold getchar. rewrite Hin.
    eexists. split; [reflexivity|]. rewrite update_flags_eq.
    cbn [reg io set_reg set_io]. repeat apply conj; reflexivity.
  - intros h1 Hk. pose proof (check_key_streams _ _ _ Hk) as [Hi _].
    assert (Hg : getchar h1 = (EOF, h1)).
    { unfold getchar. now rewrite Hi, Hin. }
    rewrite (mem_read_key s MR_KBSR h1 h1 EOF eq_refl Hk Hg).
    eexists. split; [reflexivity|]. split; reflexivity.
Qed.

Lemma end_of_input_witness :
  exists s',
    trapInstr 0xF020 (boot zero_mem quiet_host) = Done s'
    /\ reg s' R_R0 = 0xFFFF.
Proof.
  destruct (proj1 (end_of_input (boot zero_mem quiet_host) eq_refl)
              0xF020 eq_refl) as [s' [Hd [H0 _]]].
  exists s'. split; assumption.
Defined.

(** ** What a trap leaves alone *)

Lemma puts_loop_streams (mem : Z -> Z) (cells : nat) :
  forall c h h',
    puts_loop mem c cells h = Done h' ->
    pending h' = pending h /\ stdin h' = stdin h.
Proof.
  intros c h h'. rewrite puts_loop_first_zero.
  destruct (first_zero mem c cells); [|discriminate].
  intros [= <-]. now split.
Qed.

Lemma putsp_loop_streams (mem : Z -> Z) (cells : nat) :
  forall c h h',
    putsp_loop mem c cells h = Done h' ->
    pending h' = pending h /\ stdin h' = stdin h.
Proof.
  intros c h h'. rewrite putsp_loop_first_zero.
  destruct (first_zero mem c cells); [|discriminate].
  intros [= <-]. now split.
Qed.

(** X16.  No trap routine writes memory or polls the keyboard probe, and
    the only registers a TRAP changes are [R7] (always, to the incremented
    [PC]), and [R0] and [COND] (GETC and IN only); every other register
    keeps its value. *)
Theorem trap_frame (instr : Z) (s s' : machine) :
  trapInstr instr s = Done s' ->
  memory s' = memory s
  /\ pending (io s') = pending (io s)
  /\ reg s' R_R7 = reg s R_PC
  /\ (forall r, r <> R_R0 -> r <> R_R7 -> r <> R_COND -> reg s' r = reg s r)
  /\ (Z.land instr 0xFF <> 0x20 -> Z.land instr 0xFF <> 0x23 ->
      forall r, r <> R_R7 -> reg s' r = reg s r).
Proof.
  unfold trapInstr. cbv zeta.
  assert (Hframe : forall r v, r <> R_R7 ->
            upd (reg s) R_R7 v r = reg s r)
    by (intros; now apply upd_other).
  destruct (trapcode_of (Z.land instr 0xFF)) as [[]|] eqn:E;
    try apply trapcode_of_vector in E; cbn [trap_vector] in E.
  - destruct (getchar _) as [c h] eqn:G. intros [= <-].
    rewrite update_flags_eq. cbn [memory io reg set_reg set_io].
    repeat apply conj; try reflexivity.
    + unfold getchar in G. cbn [io set_reg] in G.
      destruct (stdin (io s)); injection G as <- <-; reflexivity.
    + intros r H0 H7 Hc. now rewrite !upd_other by assumption.
    + intros Hv. now destruct Hv.
  - intros [= <-]. cbn [memory io reg set_reg set_io].
    repeat apply conj; try reflexivity.
    + intros r H0 H7 Hc. now apply upd_other.
    + intros _ _ r H7. now apply upd_other.
  - destruct (puts_loop _ _ _ _) as [h| |] eqn:L; try discriminate.
    intros [= <-]. apply puts_loop_streams in L as [Hp _].
    cbn [memory io reg set_reg set_io] in *.
    repeat apply conj; try reflexivity; try assumption.
    + intros r H0 H7 Hc. now apply upd_other.
    + intros _ _ r H7. now apply upd_other.
  - destruct (put_bytes_streams (bytes_of "Enter a character: "%string)
                (io (set_reg R_R7 (reg s R_PC) s))) as [Hp [Hi _]].
    destruct (getchar _) as [c h] eqn:G. intros [= <-].
    rewrite update_flags_eq. cbn [memory io reg set_reg set_io putc pending].
    repeat apply conj; try reflexivity.
    + unfold getchar in G. rewrite Hp in G.
      destruct (stdin _); injection G as <- <-; cbn [pending];
        now rewrite ?Hp.
    + intros r H0 H7 Hc. now rewrite !upd_other by assumption.
    + intros _ Hv. now destruct Hv.
  - destruct (putsp_loop _ _ _ _) as [h| |] eqn:L; try discriminate.
    intros [= <-]. apply putsp_loop_streams in L as [Hp _].
    cbn [memory io reg set_reg set_io] in *.
    repeat apply conj; try reflexivity; try assumption.
    + intros r H0 H7 Hc. now apply upd_other.
    + intros _ _ r H7. now apply upd_other.
  - intros [= <-].
    destruct (put_bytes_streams (bytes_of "HALT"%string ++ [10])
                (io (set_reg R_R7 (reg s R_PC) s))) as [Hp _].
    cbn [memory io reg set_reg set_io set_running] in *.
    repeat apply conj; try reflexivity; try assumption.
    + intros r H0 H7 Hc. now apply upd_other.
    + intros _ _ r H7. now apply upd_other.
  - intros [= <-]. cbn [memory io reg set_reg set_io].
    repeat apply conj; try reflexivity.
    + intros r H0 H7 Hc. now apply upd_other.
    + intros _ _ r H7. now apply upd_other.
Qed.

Lemma trap_frame_witness :
  exists s',
    trapInstr 0xF022 hi_machine = Done s'
    /\ memory s' = memory hi_machine
    /\ reg s' R_R0 = 0x4000.
Proof.
  eexists. split; [reflexivity|].
  match goal with
  | |- memory ?t = _ /\ _ =>
      destruct (trap_frame 0xF022 hi_machine t eq_refl) as [Hm [_ [_ [_ Hr]]]]
  end.
  split; [exact Hm|].
  apply (Hr ltac:(discriminate) ltac:(discriminate) R_R0). discriminate.
Defined.

(** ** Leaving the run loop *)

(** Same running flag and same bytes written so far. *)
Lemma mem_read_stdout (a : Z) (s : machine) :
  stdout (io (snd (mem_read a s))) = stdout (io s).
Proof.
  unfold mem_read. cbv zeta. destruct (w16 a =? MR_KBSR); [|reflexivity].
  destruct (check_key (io s)) as [[] h1] eqn:K;
    apply check_key_streams in K as [_ Ho]; cbn [snd io set_mem set_io];
    [|exact Ho].
  unfold getchar. destruct (stdin h1); cbn [io set_mem set_io stdout];
    exact Ho.
Qed.

Lemma fetch_quiet (s : machine) :
  running (snd (fetch s)) = running s
  /\ stdout (io (snd (fetch s))) = stdout (io s).
Proof.
  unfold fetch. cbv zeta. now rewrite mem_read_running, mem_read_stdout.
Qed.

Ltac quiet_read :=
  repeat match goal with
         | |- context [mem_read ?a ?s] =>
             let Hr := fresh "Hr" in
             let Ho := fresh "Ho" in
             pose proof (mem_read_running s a) as Hr;
             pose proof (mem_read_stdout a s) as Ho;
             destruct (mem_read a s); cbn [snd] in Hr, Ho
         end;
  rewrite ?update_flags_eq; unfold mem_write;
  cbn [running io set_reg set_mem]; split; congruence.

(** Apart from TRAP, no handler changes the running flag or writes to the
    host output. *)
Lemma handlers_quiet (instr : Z) (s s' : machine) (o : opcode) :
  opcode_of (Z.shiftr instr 12) = Some o ->
  o <> OP_TRAP ->
  dispatch instr s = Done s' ->
  running s' = running s /\ stdout (io s') = stdout (io s).
Proof.
  intros Ho Hnt. unfold dispatch. cbv zeta. rewrite Ho.
  destruct o; try discriminate; try congruence; intros [= <-].
  - unfold brInstr. cbv zeta. destruct (nz _); now split.
  - unfold addInstr. cbv zeta. destruct (nz _); quiet_read.
  - unfold ldInstr. cbv zeta. quiet_read.
  - unfold stInstr. cbv zeta. quiet_read.
  - unfold jsrInstr. cbv zeta. destruct (nz _); now split.
  - unfold andInstr. cbv zeta. destruct (nz _); quiet_read.
  - unfold ldrInstr. cbv zeta. quiet_read.
  - unfold strInstr. cbv zeta. quiet_read.
  - unfold notInstr. cbv zeta. quiet_read.
  - unfold ldiInstr. cbv zeta. quiet_read.
  - unfold stiInstr. cbv zeta. quiet_read.
  - now split.
  - unfold leaInstr. cbv zeta. quiet_read.
Qed.

Lemma trap_running (instr : Z) (s s' : machine) :
  trapInstr instr s = Done s' ->
  running s' = running s \/ (Z.land instr 0xFF = 0x25 /\ running s' = false).
Proof.
  unfold trapInstr. cbv zeta.
  destruct (trapcode_of (Z.land instr 0xFF)) as [[]|] eqn:E;
    try apply trapcode_of_vector in E; cbn [trap_vector] in E.
  - destruct (getchar _). intros [= <-]. left. now rewrite update_flags_eq.
  - intros [= <-]. now left.
  - destruct (puts_loop _ _ _ _); try discriminate. intros [= <-]. now left.
  - destruct (getchar _). intros [= <-]. left. now rewrite update_flags_eq.
  - destruct (putsp_loop _ _ _ _); try discriminate. intros [= <-]. now left.
  - intros [= <-]. right. now split.
  - intros [= <-]. now left.
Qed.

(** X17.  A turn of the loop that fetches TRAP 0x25 (HALT) writes "HALT"
    and a newline, clears the running flag and changes nothing else but
    [R7]; the loop then stops, whatever number of turns it was allowed. *)
Theorem halt_stops_loop (s s1 : machine) (instr : Z) :
  running s = true ->
  fetch s = (instr, s1) ->
  Z.shiftr instr 12 = 15 ->
  Z.land instr 0xFF = 0x25 ->
  exists s',
    step s = Done s'
    /\ running s' = false
    /\ stdout (io s') = stdout (io s) ++ bytes_of "HALT"%string ++ [10]
    /\ memory s' = memory s1
    /\ (forall r, r <> R_R7 -> reg s' r = reg s1 r)
    /\ (forall fuel, run (S fuel) s = Some (Done s')).
Proof.
  intros Hrun Hf Hop Hv.
  destruct (fetch_quiet s) as [_ Hout]. rewrite Hf in Hout. cbn [snd] in Hout.
  assert (Hstep : step s =
    Done (set_running false
            (set_io (put_bytes (bytes_of "HALT"%string ++ [10]) (io s1))
               (set_reg R_R7 (reg s1 R_PC) s1)))).
  { unfold step. rewrite Hf. unfold dispatch. cbv zeta. rewrite Hop.
    cbn [opcode_of]. unfold trapInstr. cbv zeta. now rewrite Hv. }
  eexists. split; [exact Hstep|].
  destruct (put_bytes_streams (bytes_of "HALT"%string ++ [10]) (io s1))
    as [_ [_ Ho]].
  cbn [running memory reg io set_running set_io set_reg].
  repeat apply conj; try reflexivity.
  - now rewrite Ho, Hout.
  - intros r Hr. now apply upd_other.
  - intros fuel. cbn [run]. rewrite Hrun, Hstep.
    destruct fuel; reflexivity.
Qed.

Lemma halt_stops_loop_witness :
  exists s',
    run 1 (boot (upd zero_mem 0x3000 0xF025) quiet_host) = Some (Done s')
    /\ running s' = false
    /\ stdout (io s') = [72; 65; 76; 84; 10].
Proof.
  destruct (halt_stops_loop (boot (upd zero_mem 0x3000 0xF025) quiet_host)
              _ 0xF025 eq_refl eq_refl eq_refl eq_refl)
    as [s' [_ [Hr [Ho [_ [_ Hrun]]]]]].
  exists s'. split; [exact (Hrun O)|]. split; [exact Hr | exact Ho].
Defined.

(** X18.  HALT is the only way out of the loop and TRAP the only source of
    output: a turn that returns with the running flag changed has fetched
    TRAP 0x25, and a turn that fetched anything but a TRAP leaves the
    running flag and the bytes written so far as they were. *)
Theorem only_halt_stops (s s1 s' : machine) (instr : Z) :
  fetch s = (instr, s1) ->
  step s = Done s' ->
  (running s' <> running s ->
   opcode_of (Z.shiftr instr 12) = Some OP_TRAP
   /\ Z.land instr 0xFF = 0x25
   /\ running s' = false)
  /\ (opcode_of (Z.shiftr instr 12) <> Some OP_TRAP ->
      running s' = running s /\ stdout (io s') = stdout (io s)).
Proof.
  intros Hf Hstep.
  destruct (fetch_quiet s) as [Hr1 Ho1]. rewrite Hf in Hr1, Ho1.
  cbn [snd] in Hr1, Ho1.
  unfold step in Hstep. rewrite Hf in Hstep.
  destruct (opcode_of (Z.shiftr instr 12)) as [o|] eqn:E.
  - assert (Hdec : o = OP_TRAP \/ o <> OP_TRAP)
      by (destruct o; (now left) || (right; discriminate)).
    destruct Hdec as [-> | Hnt].
    + split; [|intros Hc; now destruct Hc].
      intros Hchg. unfold dispatch in Hstep. cbv zeta in Hstep.
      rewrite E in Hstep.
      destruct (trap_running _ _ _ Hstep) as [Hsame | [Hv Hfalse]].
      * exfalso. apply Hchg. congruence.
      * now repeat split.
    + destruct (handlers_quiet _ _ _ _ E Hnt Hstep) as [Hr Ho].
      split.
      * intros Hchg. exfalso. apply Hchg. congruence.
      * intros _. split; congruence.
  - unfold dispatch in Hstep. cbv zeta in Hstep. rewrite E in Hstep.
    discriminate.
Qed.

Lemma only_halt_stops_witness :
  exists s',
    step (boot (loaded add_halt_image) quiet_host) = Done s'
    /\ running s' = true
    /\ stdout (io s') = [].
Proof.
  eexists. split; [reflexivity|].
  match goal with
  | |- running ?t = _ /\ _ =>
      refine (proj2 (only_halt_stops (boot (loaded add_halt_image) quiet_host)
                       _ t 0x1020 eq_refl eq_refl) _)
  end.
  discriminate.
Defined.

(** ** Illegal instructions *)

Lemma opcode_of_value (op : Z) (o : opcode) :
  opcode_of op = Some o -> op = opcode_value o.
Proof.
  unfold opcode_of.
  destruct op as [|p|p]; try discriminate.
  - intros [= <-]. reflexivity.
  - do 4 (try (destruct p as [p|p|]; try discriminate));
      intros [= <-]; reflexivity.
Qed.

Lemma opcode_of_word (instr : Z) :
  word instr -> exists o, opcode_of (Z.shiftr instr 12) = Some o.
Proof.
  unfold word. intros Hw.
  assert (Hop : 0 <= Z.shiftr instr 12 < 16).
  { rewrite Z.shiftr_div_pow2 by lia. change (2 ^ 12) with 4096.
    Z.div_mod_to_equations. lia. }
  set (op := Z.shiftr instr 12) in *.
  assert (Hcases : op = 0 \/ op = 1 \/ op = 2 \/ op = 3 \/ op = 4 \/ op = 5
                   \/ op = 6 \/ op = 7 \/ op = 8 \/ op = 9 \/ op = 10
                   \/ op = 11 \/ op = 12 \/ op = 13 \/ op = 14 \/ op = 15)
    by lia.
  repeat (destruct Hcases as [-> | Hcases]; [eexists; reflexivity|]).
  subst op. rewrite Hcases. eexists. reflexivity.
Qed.

Lemma trapInstr_no_abort (instr : Z) (s : machine) :
  trapInstr instr s <> Aborted.
Proof.
  destruct (trapInstr_R7 instr s) as [[s' [-> _]] | [-> _]]; discriminate.
Qed.

(** X19.  For a 16-bit instruction word the [switch] aborts the process
    exactly for the opcodes RTI (8) and RES (13); every other opcode reaches
    a handler, and the handlers other than TRAP always return. *)
Theorem dispatch_aborts_iff (instr : Z) (s : machine) :
  word instr ->
  let op := Z.shiftr instr 12 in
  (dispatch instr s = Aborted <-> op = 8 \/ op = 13)
  /\ (op <> 8 -> op <> 13 -> op <> 15 -> exists s', dispatch instr s = Done s').
Proof.
  intros Hw op. destruct (opcode_of_word instr Hw) as [o Ho].
  pose proof (opcode_of_value _ _ Ho) as Hval. fold op in Ho, Hval.
  unfold dispatch. cbv zeta. fold op. rewrite Ho.
  destruct o; cbn [opcode_value] in Hval; split;
    try (split; [discriminate | lia]);
    try (split; [intros _; lia | reflexivity]);
    try (intros; eexists; reflexivity);
    try (intros; lia).
  split; [intros Ha; now apply trapInstr_no_abort in Ha | lia].
Qed.

Lemma dispatch_aborts_iff_witness :
  dispatch 0x8000 blank = Aborted /\ dispatch 0xD000 blank = Aborted.
Proof.
  assert (H8 : word 0x8000) by (unfold word; lia).
  assert (HD : word 0xD000) by (unfold word; lia).
  split.
  - apply (proj2 (proj1 (dispatch_aborts_iff 0x8000 blank H8))). now left.
  - apply (proj2 (proj1 (dispatch_aborts_iff 0xD000 blank HD))). now right.
Defined.

(** ** Every cell holds a 16-bit value *)

Lemma word_w16 (x : Z) : word (w16 x).
Proof. apply w16_range. Qed.

Lemma word_land (a b : Z) : word b -> word (Z.land a b).
Proof.
  unfold word. intros Hb.
  assert (Hbb : Z.land b (Z.ones 16) = b).
  { rewrite Z.land_ones by lia. apply Z.mod_small. exact Hb. }
  rewrite <- Hbb, Z.land_assoc, Z.land_ones by lia.
  apply Z.mod_pos_bound. reflexivity.
Qed.

Lemma word_flag (v : Z) : word (flag_of v).
Proof.
  unfold word. destruct (flag_of_cases v) as [-> | [-> | ->]]; lia.
Qed.

Lemma word_sext (instr n : Z) :
  1 <= n <= 16 -> word (sign_extend (Z.land instr (Z.ones n)) n).
Proof.
  intros Hn. rewrite sign_extend_wraps_signed; [apply word_w16 | exact Hn |].
  rewrite Z.land_ones by lia. apply Z.mod_pos_bound.
  apply Z.pow_pos_nonneg; lia.
Qed.

Section WellFormed.

Variable s : machine.
Hypothesis Hs : well_formed s.

Lemma wf_reg (r : Z) : word (reg s r).
Proof. apply Hs. Qed.

Lemma wf_set_reg (r v : Z) : word v -> well_formed (set_reg r v s).
Proof.
  intros Hv. split; cbn [memory reg set_reg]; [apply Hs|].
  intros r'. unfold upd. destruct (r' =? r); [exact Hv | apply Hs].
Qed.

Lemma wf_set_mem (a v : Z) : word v -> well_formed (set_mem a v s).
Proof.
  intros Hv. split; cbn [memory reg set_mem]; [|apply Hs].
  intros a'. unfold upd. destruct (a' =? a); [exact Hv | apply Hs].
Qed.

Lemma wf_set_io (h : host) : well_formed (set_io h s).
Proof. exact Hs. Qed.

Lemma wf_set_running (b : bool) : well_formed (set_running b s).
Proof. exact Hs. Qed.

Lemma wf_update_flags (r : Z) : well_formed (update_flags r s).
Proof. rewrite update_flags_eq. apply wf_set_reg, word_flag. Qed.

Lemma wf_mem_write (a v : Z) : well_formed (mem_write a v s).
Proof. apply wf_set_mem, word_w16. Qed.

End WellFormed.

Lemma wf_mem_read (a : Z) (s : machine) :
  well_formed s ->
  word (fst (mem_read a s)) /\ well_formed (snd (mem_read a s)).
Proof.
  intros Hs.
  assert (Hwf : well_formed (snd (mem_read a s))).
  { unfold mem_read. cbv zeta. destruct (w16 a =? MR_KBSR); [|exact Hs].
    destruct (check_key (io s)) as [[] h1]; cbn [snd].
    - cbn [io set_mem set_io]. destruct (getchar h1) as [c h2].
      apply wf_set_mem; [|apply word_w16].
      apply wf_set_mem; [exact Hs | unfold word; cbn; lia].
    - apply wf_set_mem; [exact Hs | unfold word; lia]. }
  split; [|exact Hwf]. rewrite mem_read_returns_cell. apply Hwf.
Qed.

Ltac wf_read :=
  repeat match goal with
         | Hs : well_formed ?s |- context [mem_read ?a ?s] =>
             let Hv := fresh "Hv" in
             let Hs' := fresh "Hs" in
             destruct (wf_mem_read a s Hs) as [Hv Hs'];
             destruct (mem_read a s); cbn [fst snd] in Hv, Hs'
         end.

Ltac wf_cells :=
  repeat first
    [ assumption
    | apply wf_update_flags
    | apply wf_mem_write
    | apply wf_set_io
    | apply wf_set_running
    | apply wf_set_reg
    | apply word_w16
    | apply wf_reg
    | apply word_land ].

Lemma wf_trapInstr (instr : Z) (s s' : machine) :
  well_formed s -> trapInstr instr s = Done s' -> well_formed s'.
Proof.
  intros Hs. unfold trapInstr. cbv zeta.
  assert (H7 : well_formed (set_reg R_R7 (reg s R_PC) s)) by wf_cells.
  destruct (trapcode_of _) as [[]|].
  - destruct (getchar _). intros [= <-]. wf_cells.
  - intros [= <-]. wf_cells.
  - destruct (puts_loop _ _ _ _); try discriminate. intros [= <-]. wf_cells.
  - destruct (getchar _). intros [= <-]. wf_cells.
  - destruct (putsp_loop _ _ _ _); try discriminate. intros [= <-]. wf_cells.
  - intros [= <-]. wf_cells.
  - intros [= <-]. exact H7.
Qed.

Lemma wf_dispatch (instr : Z) (s s' : machine) :
  well_formed s -> dispatch instr s = Done s' -> well_formed s'.
Proof.
  intros Hs. unfold dispatch. cbv zeta.
  destruct (opcode_of _) as [[]|]; try discriminate;
    try (intros [= <-]).
  - unfold brInstr. cbv zeta. destruct (nz _); wf_cells.
  - unfold addInstr. cbv zeta. destruct (nz _); wf_cells.
  - unfold ldInstr. cbv zeta. wf_read. wf_cells.
  - unfold stInstr. cbv zeta. wf_cells.
  - unfold jsrInstr. cbv zeta.
    assert (H7 : well_formed (set_reg R_R7 (reg s R_PC) s)) by wf_cells.
    destruct (nz _); wf_cells.
  - unfold andInstr. cbv zeta. destruct (nz _); wf_cells.
    exact (word_sext instr 5 ltac:(lia)).
  - unfold ldrInstr. cbv zeta. wf_read. wf_cells.
  - unfold strInstr. cbv zeta. wf_cells.
  - unfold notInstr. cbv zeta. wf_cells.
  - unfold ldiInstr. cbv zeta. wf_read. wf_cells.
  - unfold stiInstr. cbv zeta. wf_read. wf_cells.
  - unfold jmpInstr. cbv zeta. wf_cells.
  - unfold leaInstr. cbv zeta. wf_cells.
  - now apply wf_trapInstr.
Qed.

Lemma wf_fetch (s : machine) :
  well_formed s -> well_formed (snd (fetch s)).
Proof.
  intros Hs. unfold fetch. cbv zeta. apply wf_mem_read. wf_cells.
Qed.

Lemma wf_read_image_file (file : list Z) (s s' : machine) :
  well_formed s -> read_image_file file s = Some s' -> well_formed s'.
Proof.
  intros Hs. unfold read_image_file.
  destruct (image_origin file) as [origin|]; [|discriminate].
  cbv zeta. intros [= <-]. split; cbn [memory reg]; [|apply Hs].
  intros a. rewrite swap_loop_spec.
  destruct ((origin <=? a) && _) eqn:E.
  - apply word_w16.
  - rewrite store_items_spec, E. apply Hs.
Qed.

(** X20.  Every memory cell and register holds a value from 0 to 0xFFFF
    throughout: if that is so before, it is so after loading any image, in
    the state the loop is entered with, and after every turn of the loop
    that returns; no handler leaves a value outside 16 bits behind. *)
Theorem well_formed_invariant :
  (forall file s s',
     well_formed s -> read_image_file file s = Some s' -> well_formed s')
  /\ (forall mem h, (forall a, word (mem a)) -> well_formed (boot mem h))
  /\ (forall s s', well_formed s -> step s = Done s' -> well_formed s').
Proof.
  split; [exact wf_read_image_file|]. split.
  - intros mem h Hm. unfold boot.
    apply wf_set_running, wf_set_reg; [|unfold word, PC_START; lia].
    apply wf_set_reg; [|unfold word; cbn; lia].
    split; [exact Hm | intros r; unfold word; cbn; lia].
  - intros s s' Hs. unfold step.
    pose proof (wf_fetch s Hs) as Hf.
    destruct (fetch s) as [instr s1]. cbn [snd] in Hf.
    now apply wf_dispatch.
Qed.

Lemma well_formed_invariant_witness :
  well_formed (boot zero_mem quiet_host)
  /\ exists s',
      step (boot zero_mem quiet_host) = Done s' /\ well_formed s'.
Proof.
  assert (H0 : well_formed (boot zero_mem quiet_host)).
  { apply (proj1 (proj2 well_formed_invariant)).
    intros a. unfold word, zero_mem. lia. }
  split; [exact H0|].
  eexists. split; [reflexivity|].
  exact (proj2 (proj2 well_formed_invariant) _ _ H0 eq_refl).
Defined.

(** ** What the loader stores, byte by byte *)






(** ** The program as a whole *)




Example main_add_halt :
  exists s',
    main one_image_fs ["lc3"; "add.obj"]%string quiet_host 10 = Returned s'
    /\ reg s' R_R0 = 7
    /\ reg s' R_COND = FL_POS.
Proof. eexists. repeat apply conj; reflexivity. Qed.

(** ** Effective addresses *)

Lemma field_range (x n : Z) : 0 <= n -> 0 <= Z.land x (Z.ones n) < 2 ^ n.
Proof.
  intros Hn. rewrite Z.land_ones by exact Hn.
  apply Z.mod_pos_bound, Z.pow_pos_nonneg; lia.
Qed.

Lemma wrap_add_sext (a x n : Z) :
  1 <= n <= 16 -> 0 <= x < 2 ^ n ->
  w16 (a + sign_extend x n) = w16 (a + signed n x).
Proof.
  intros Hn Hx. rewrite (sign_extend_wraps_signed n x Hn Hx).
  unfold w16. now rewrite Zplus_mod_idemp_r.
Qed.

(** X23.  LEA, LD and ST address [PC] plus the signed 9-bit offset, LDR
    and STR address the base register plus the signed 6-bit offset, both
    modulo 2^16.  LEA leaves that address in the destination; LD and LDR
    load the word stored there (when it is not the keyboard status
    register); ST and STR store the source register there and change no
    other cell. *)
Theorem effective_addresses (instr : Z) (s : machine) :
  let r := Z.land (Z.shiftr instr 9) 0x7 in
  let base := Z.land (Z.shiftr instr 6) 0x7 in
  let pcrel := w16 (reg s R_PC + signed 9 (Z.land instr 0x1FF)) in
  let based := w16 (reg s base + signed 6 (Z.land instr 0x3F)) in
  reg (leaInstr instr s) r = pcrel
  /\ (pcrel <> MR_KBSR -> reg (ldInstr instr s) r = memory s pcrel)
  /\ (based <> MR_KBSR -> reg (ldrInstr instr s) r = memory s based)
  /\ memory (stInstr instr s) pcrel = w16 (reg s r)
  /\ (forall a, a <> pcrel -> memory (stInstr instr s) a = memory s a)
  /\ memory (strInstr instr s) based = w16 (reg s r)
  /\ (forall a, a <> based -> memory (strInstr instr s) a = memory s a).
Proof.
  intros r base pcrel based. subst r base.
  assert (H9 : w16 (reg s R_PC + sign_extend (Z.land instr 0x1FF) 9) = pcrel)
    by (apply wrap_add_sext; [lia | exact (field_range instr 9 ltac:(lia))]).
  assert (H6 : w16 (reg s (Z.land (Z.shiftr instr 6) 0x7)
                    + sign_extend (Z.land instr 0x3F) 6) = based)
    by (apply wrap_add_sext; [lia | exact (field_range instr 6 ltac:(lia))]).
  split; [|split; [|split]].
  - destruct (leaInstr_eq instr s) as [-> _]. exact H9.
  - intros Hk. destruct (ldInstr_eq instr s) as [-> _].
    rewrite mem_read_plain by (rewrite H9; exact Hk). cbn [fst].
    now rewrite H9.
  - intros Hk. destruct (ldrInstr_eq instr s) as [-> _].
    rewrite mem_read_plain by (rewrite H6; exact Hk). cbn [fst].
    now rewrite H6.
  - unfold stInstr, strInstr, mem_write. cbv zeta.
    cbn [memory set_mem]. rewrite H9, H6.
    repeat apply conj.
    + apply upd_same.
    + intros a Ha. now apply upd_other.
    + apply upd_same.
    + intros a Ha. now apply upd_other.
Qed.

Lemma effective_addresses_witness :
  reg (ldInstr 0x23FE
         (set_reg R_PC 0x3001 (boot (upd zero_mem 0x2FFF 0xABCD) quiet_host)))
      R_R1
  = 0xABCD.
Proof.
  refine (proj1 (proj2 (effective_addresses 0x23FE
            (set_reg R_PC 0x3001 (boot (upd zero_mem 0x2FFF 0xABCD) quiet_host))))
            _).
  vm_compute. discriminate.
Defined.
